(** * protoc-plugin-ts: the pipeline orchestrator of [src/index.ts]

    A shallow embedding of [index.ts]: the helpers [createImport],
    [createComment], [replaceExtension] and the driver [main].

    [index.ts] is the only module under verification.  What it imports
    falls in three groups:
    - the TypeScript compiler API ([factory], the printer) and Node's
      [path]: the AST nodes that [index.ts] builds itself are an
      inductive type, the unique-name counter of the factory is part of
      the threaded state, the printer and the path functions are
      abstract;
    - the translators of [./descriptor.js], the option parser of
      [./option.js], [preprocess] of [./type.js], and the dynamically
      imported [./style/<style>/rpc.js]: abstract operations, gathered in
      the class [Collaborators];
    - the dependency table of [./type.js] and [createNamespace]: modelled
      from their description.

    The collaborators are total functions of their arguments and of the
    tables of [./type.js] they read; the one failure [main] can meet in
    this model is a style that does not load. *)

From Stdlib Require Import ZArith Ascii DecimalString.
From stdpp Require Import base option strings list gmap.

Local Open Scope string_scope.

(** ** Data that [index.ts] only passes around *)

(** The descriptor classes of [./compiler/descriptor.js], the [Options]
    of [./option.js], the symbol tables that [preprocess] fills and the
    declarations the translators return. *)
Class Types := {
  EnumDescriptorProto : Type;
  DescriptorProto : Type;
  ServiceDescriptorProto : Type;
  Options : Type;
  SymbolTable : Type;
  Decl : Type;
}.

(** An identifier made by [factory.createUniqueName]: the base text and
    the id the factory draws from its counter [nextAutoGenerateId]. *)
Record Identifier := {
  text : string;
  autoGenerateId : nat;
}.

#[global] Instance Identifier_eq_dec : EqDecision Identifier.
Proof. solve_decision. Defined.

Section DataModel.
Context `{Types}.

(** The fields of [FileDescriptorProto] that [index.ts] reads. *)
Record FileDescriptorProto := {
  name : string;
  package : option string;
  dependency : list string;
  enum_type : list EnumDescriptorProto;
  message_type : list DescriptorProto;
  service : list ServiceDescriptorProto;
}.

(** [Version]: each component may be absent. *)
Record Version := {
  major : option Z;
  minor : option Z;
  patch : option Z;
}.

Record CodeGeneratorRequest := {
  parameter : string;
  proto_file : list FileDescriptorProto;
  compiler_version : Version;
}.

(** [CodeGeneratorResponse.File]; its field [name] is [file_name] here,
    [name] being taken by the descriptor. *)
Record File := {
  file_name : string;
  content : string;
}.

Record CodeGeneratorResponse := {
  file : list File;
}.

(** The statements of a generated source file.  The first two are the
    nodes [index.ts] creates through [factory]; [Declaration] carries
    what a translator returned; [NamespaceDeclaration] is the node of
    [createNamespace]. *)
#[warnings="-register-all"]
Inductive Statement :=
| JSDocComment (comment : string)
| ImportDeclaration (binding : Identifier) (moduleSpecifier : string)
| Declaration (d : Decl)
| NamespaceDeclaration (scope : option string) (body : list Statement).

(** [factory.createSourceFile(statements, EndOfFileToken, NodeFlags.None)] *)
Record SourceFile := {
  statements : list Statement;
}.

(** The module state of [./type.js]: the Dependency Identifier Map and
    the tables built by [preprocess]. *)
Record TypeTables := {
  dependencyMap : gmap string Identifier;
  symbols : SymbolTable;
}.

(** Everything the run mutates: the tables of [./type.js] and the
    unique-name counter of the TypeScript factory. *)
Record Globals := {
  tables : TypeTables;
  nextAutoGenerateId : nat;
}.

(** [interface Rpc]: four operations, each of which a style may leave
    out.  An operation reads the tables of [./type.js] when it resolves
    a type reference. *)
Record Rpc := {
  createServiceClient :
    option (TypeTables -> FileDescriptorProto -> ServiceDescriptorProto ->
            Identifier -> Options -> Decl);
  createUnimplementedServer :
    option (TypeTables -> FileDescriptorProto -> ServiceDescriptorProto ->
            Identifier -> Decl);
  createGrpcInterfaceType : option (TypeTables -> Identifier -> list Decl);
  wrapInNamespace : option (TypeTables -> FileDescriptorProto -> bool);
}.
End DataModel.

Arguments JSDocComment {_} _.
Arguments ImportDeclaration {_} _ _.

(** ** Operations that live outside [index.ts] *)

Class Collaborators `{Types} := {
  (* ./option.js *)
  parseInput : string -> Options;
  style : Options -> option string;
  grpc_package : Options -> string;
  (* ./descriptor.js *)
  createEnum : TypeTables -> EnumDescriptorProto -> Decl;
  createMessage :
    TypeTables -> FileDescriptorProto -> DescriptorProto -> Identifier -> list Decl;
  (* ./type.js *)
  preprocess : FileDescriptorProto -> string -> string -> SymbolTable -> SymbolTable;
  (* the dynamic [import()]: [None] when the specifier does not resolve *)
  import_ : string -> option Rpc;
  (* path *)
  dirname : string -> string;
  relative : string -> string -> string;
  (* the printer made by [createPrinter] *)
  printFile : SourceFile -> string;
}.

(** ** The state monad of the run *)

Section Orchestrator.
Context `{Collaborators}.

Definition M (A : Type) : Type := Globals -> A * Globals.

Definition ret {A} (a : A) : M A := fun g => (a, g).

Definition bind {A B} (m : M A) (k : A -> M B) : M B :=
  fun g => let '(a, g') := m g in k a g'.

Notation "'step' x '<-' m 'in' k" := (bind m (fun x => k))
  (at level 10, x name, m at level 100, k at level 200).

Definition getTables : M TypeTables := fun g => (tables g, g).

(** [for (const x of xs) body(x)] *)
Fixpoint forOf {A} (body : A -> M unit) (xs : list A) : M unit :=
  match xs with
  | [] => ret tt
  | x :: rest => step _ <- body x in forOf body rest
  end.

(** [xs.map(callback)] with a callback that has effects: the elements
    are visited in index order. *)
Fixpoint arrayMap {A B} (callback : A -> M B) (xs : list A) : M (list B) :=
  match xs with
  | [] => ret []
  | x :: rest =>
      step y <- callback x in
      step ys <- arrayMap callback rest in
      ret (y :: ys)
  end.

(** [factory.createUniqueName(text)]: the node takes the next id of the
    factory's counter. *)
Definition createUniqueName (base : string) : M Identifier :=
  fun g =>
    ({| text := base; autoGenerateId := nextAutoGenerateId g |},
     {| tables := tables g; nextAutoGenerateId := S (nextAutoGenerateId g) |}).

(** Modelled from the spec: [resetDependencyMap] of [./type.js], which
    is not among the sources; it clears the Dependency Identifier Map. *)
Definition resetDependencyMap : M unit :=
  fun g =>
    (tt, {| tables := {| dependencyMap := ∅; symbols := symbols (tables g) |};
            nextAutoGenerateId := nextAutoGenerateId g |}).

(** Modelled from the spec: [setIdentifierForDependency] of [./type.js],
    which is not among the sources; it binds a dependency's schema file
    name to the alias the current file uses for it. *)
Definition setIdentifierForDependency (dep : string) (identifier : Identifier) : M unit :=
  fun g =>
    (tt, {| tables := {| dependencyMap := <[dep := identifier]> (dependencyMap (tables g));
                         symbols := symbols (tables g) |};
            nextAutoGenerateId := nextAutoGenerateId g |}).

(** [preprocess] updates the symbol tables of [./type.js]. *)
Definition runPreprocess (protoFile : FileDescriptorProto) (path prefix : string) : M unit :=
  fun g =>
    (tt, {| tables := {| dependencyMap := dependencyMap (tables g);
                         symbols := preprocess protoFile path prefix (symbols (tables g)) |};
            nextAutoGenerateId := nextAutoGenerateId g |}).

(** Modelled from the spec: [createNamespace] of [./descriptor.js],
    which is not among the sources; one namespace block, named by the
    schema's package, around the given statements. *)
Definition createNamespace (packageName : option string) (stmts : list Statement) : Statement :=
  NamespaceDeclaration packageName stmts.

(** ** [createImport] *)
Definition createImport (identifier : Identifier) (moduleSpecifier : string) : Statement :=
  ImportDeclaration identifier moduleSpecifier.

(** ** [createComment] *)
Definition LF : string := String "010"%char EmptyString.

Definition showNumber (z : Z) : string := NilZero.string_of_int (Z.to_int z).

Definition createComment (fileDescriptor : FileDescriptorProto) (v : Version) : Statement :=
  JSDocComment
    ("Generated by @fyn-software/protoc-plugin-ts. DO NOT EDIT!" +:+ LF +:+
     "compiler version: " +:+ showNumber (default 0%Z (major v)) +:+ "." +:+
        showNumber (default 0%Z (minor v)) +:+ "." +:+
        showNumber (default 0%Z (patch v)) +:+ LF +:+
     "source: " +:+ name fileDescriptor +:+ LF +:+
     "git: https://github.com/fyn-software/protoc-plugin-ts" +:+ LF).

(** ** [replaceExtension] *)

(** The class [[^/.]] *)
Definition extensionChar (c : ascii) : bool :=
  negb (Ascii.eqb c "/"%char) && negb (Ascii.eqb c "."%char).

Fixpoint extensionChars (s : string) : bool :=
  match s with
  | EmptyString => true
  | String c rest => extensionChar c && extensionChars rest
  end.

(** Does [/\.[^/.]+$/] match the whole of [s]? *)
Definition extensionAt (s : string) : bool :=
  match s with
  | String c (String c' rest) =>
      Ascii.eqb c "."%char && extensionChar c' && extensionChars rest
  | _ => false
  end.

(** What [String.prototype.replace] puts in place of a match when the
    pattern has no capture groups: in the replacement [$$] stands for a
    dollar, [$&] for the match, [$`] for what precedes the match and [$']
    for what follows it; every other character, a dollar before anything
    else included, stands for itself. *)
Fixpoint getSubstitution (matched before after replacement : string) : string :=
  match replacement with
  | EmptyString => EmptyString
  | String c tail =>
      if Ascii.eqb c "$"%char then
        match tail with
        | EmptyString => String c EmptyString
        | String c' rest =>
            if Ascii.eqb c' "$"%char then
              String "$"%char (getSubstitution matched before after rest)
            else if Ascii.eqb c' "&"%char then
              matched +:+ getSubstitution matched before after rest
            else if Ascii.eqb c' "`"%char then
              before +:+ getSubstitution matched before after rest
            else if Ascii.eqb c' "'"%char then
              after +:+ getSubstitution matched before after rest
            else String c (getSubstitution matched before after tail)
        end
      else String c (getSubstitution matched before after tail)
  end.

(** The replacement at the leftmost position where the pattern matches,
    [before] being what was passed over; the pattern ends at the end of
    the name, so nothing follows a match.  A name without a match is
    returned as it is. *)
Fixpoint replaceAt (before filename extension : string) : string :=
  if extensionAt filename
  then getSubstitution filename before EmptyString extension
  else match filename with
       | EmptyString => EmptyString
       | String c rest =>
           String c (replaceAt (before +:+ String c EmptyString) rest extension)
       end.

(** [filename.replace(/\.[^/.]+$/, extension)] *)
Definition replaceExtension (filename extension : string) : string :=
  replaceAt EmptyString filename extension.

(** A replacement without dollar is inserted as it stands. *)
Fixpoint dollarFree (s : string) : bool :=
  match s with
  | EmptyString => true
  | String c rest => negb (Ascii.eqb c "$"%char) && dollarFree rest
  end.

(** ** [main] *)

(** A template literal renders an absent value as [undefined]. *)
Definition interpolate (v : option string) : string := default "undefined" v.

Definition stylePath (options : Options) : string :=
  "./style/" +:+ interpolate (style options) +:+ "/rpc.js".

(** [[a, b].filter(c => c !== undefined)] *)
Definition defined {A} (xs : list (option A)) : list A := omap id xs.

(** Lines 96-111: the declarations of one file, translated under the
    tables [t] that [./type.js] holds at that moment. *)
Definition fileStatements (options : Options) (rpc : Rpc)
    (pbIdentifier grpcIdentifier : Identifier)
    (t : TypeTables) (f : FileDescriptorProto) : list Statement :=
  map (fun enumDescriptor => Declaration (createEnum t enumDescriptor)) (enum_type f)
  ++ flat_map (fun message => map Declaration (createMessage t f message pbIdentifier))
       (message_type f)
  ++ map Declaration
       (match createGrpcInterfaceType rpc with
        | Some create => create t grpcIdentifier
        | None => []
        end)
  ++ flat_map (fun svc =>
       map Declaration (defined [
         (fun create => create t f svc grpcIdentifier) <$> createUnimplementedServer rpc;
         (fun create => create t f svc grpcIdentifier options) <$> createServiceClient rpc
       ])) (service f).

(** Lines 123-132: the callback that makes one dependency import. *)
Definition dependencyImport (f : FileDescriptorProto) (dep : string) : M Statement :=
  step identifier <- createUniqueName "dependency" in
  step _ <- setIdentifierForDependency dep identifier in
  ret (createImport identifier
         ("./" +:+ relative (dirname (name f)) (replaceExtension dep EmptyString))).

(** [wrapInNamespace?.(file) ?? false] *)
Definition wraps (rpc : Rpc) (t : TypeTables) (f : FileDescriptorProto) : bool :=
  match wrapInNamespace rpc with
  | Some query => query t f
  | None => false
  end.

(** Lines 96-146: the source file that is handed to the printer. *)
Definition generatedSource (request : CodeGeneratorRequest) (options : Options)
    (rpc : Rpc) (pbIdentifier grpcIdentifier : Identifier)
    (f : FileDescriptorProto) : M SourceFile :=
  step t <- getTables in
  let stmts := fileStatements options rpc pbIdentifier grpcIdentifier t f in
  step _ <- resetDependencyMap in
  step imports <- arrayMap (dependencyImport f) (dependency f) in
  step t' <- getTables in
  ret {| statements :=
           [createComment f (compiler_version request)]
           ++ imports
           ++ [createImport pbIdentifier "google-protobuf";
               createImport grpcIdentifier (grpc_package options)]
           ++ (if wraps rpc t' f
               then [createNamespace (package f) stmts]
               else stmts) |}.

(** The callback of [request.proto_file.map]. *)
Definition generatedFile (request : CodeGeneratorRequest) (options : Options)
    (rpc : Rpc) (pbIdentifier grpcIdentifier : Identifier)
    (f : FileDescriptorProto) : M File :=
  step sourceFile <-
    generatedSource request options rpc pbIdentifier grpcIdentifier f in
  ret {| file_name := replaceExtension (name f) ".ts";
         content := printFile sourceFile |}.

(** [main]: the response written to the output channel, or [None] when
    the import of the style is rejected and nothing is written. *)
Definition main (request : CodeGeneratorRequest) : M (option CodeGeneratorResponse) :=
  step pbIdentifier <- createUniqueName "pb" in
  step grpcIdentifier <- createUniqueName "grpc" in
  let options := parseInput (parameter request) in
  match import_ (stylePath options) with
  | None => ret None
  | Some rpc =>
      step _ <- forOf (fun protoFile =>
                  runPreprocess protoFile (name protoFile)
                    ("." +:+ default EmptyString (package protoFile)))
                  (proto_file request) in
      step files <- arrayMap
                      (generatedFile request options rpc pbIdentifier grpcIdentifier)
                      (proto_file request) in
      ret (Some {| file := files |})
  end.
End Orchestrator.

(** ** A concrete world to run the orchestrator in

    Small stand-ins for the collaborators: descriptors that carry just a
    name (and, for a message, the schema files its field types come
    from), a translator that resolves every field through the dependency
    table it is given, three styles, and a printer. *)
Module Demo.

Inductive decl :=
| EnumDecl (enumName : string)
| MessageDecl (messageName : string) (pb : Identifier)
    (fields : list (string * option Identifier))
| InterfaceDecl (grpc : Identifier)
| ServerDecl (serviceName : string) (grpc : Identifier)
| ClientDecl (serviceName : string) (grpc : Identifier).

Definition renameDecl (rho : Identifier -> Identifier) (d : decl) : decl :=
  match d with
  | EnumDecl n => EnumDecl n
  | MessageDecl n pb fields =>
      MessageDecl n (rho pb) (map (fun fld => (fst fld, rho <$> snd fld)) fields)
  | InterfaceDecl grpc => InterfaceDecl (rho grpc)
  | ServerDecl n grpc => ServerDecl n (rho grpc)
  | ClientDecl n grpc => ClientDecl n (rho grpc)
  end.

(** A message: its name, and for each field the schema file that
    defines the field's type. *)
Definition message : Type := string * list string.

(** Options: the style (absent when the parameter string is empty) and
    the package of the RPC framework. *)
Definition options : Type := option string * string.

Definition types : Types := {|
  EnumDescriptorProto := string;
  DescriptorProto := message;
  ServiceDescriptorProto := string;
  Options := options;
  SymbolTable := list string;
  Decl := decl;
|}.

#[local] Existing Instance types.

Definition parse (parameter : string) : options :=
  (if decide (parameter = EmptyString) then None else Some parameter, "@grpc/grpc-js").

(** A field whose type lives in schema file [home] is qualified by the
    alias the table holds for [home], if it holds one. *)
Definition translateMessage (t : TypeTables) (f : FileDescriptorProto)
    (m : message) (pb : Identifier) : list decl :=
  [MessageDecl (fst m) pb (map (fun home => (home, dependencyMap t !! home)) (snd m))].

Definition fullStyle : Rpc := {|
  createServiceClient := Some (fun _ _ svc grpc _ => ClientDecl svc grpc);
  createUnimplementedServer := Some (fun _ _ svc grpc => ServerDecl svc grpc);
  createGrpcInterfaceType := Some (fun _ grpc => [InterfaceDecl grpc]);
  wrapInNamespace := Some (fun _ f => bool_decide (is_Some (package f)));
|}.

Definition clientOnlyStyle : Rpc := {|
  createServiceClient := Some (fun _ _ svc grpc _ => ClientDecl svc grpc);
  createUnimplementedServer := None;
  createGrpcInterfaceType := None;
  wrapInNamespace := None;
|}.

Definition bareStyle : Rpc := {|
  createServiceClient := None;
  createUnimplementedServer := None;
  createGrpcInterfaceType := None;
  wrapInNamespace := None;
|}.

Definition load (specifier : string) : option Rpc :=
  if decide (specifier = "./style/full/rpc.js") then Some fullStyle
  else if decide (specifier = "./style/client/rpc.js") then Some clientOnlyStyle
  else if decide (specifier = "./style/bare/rpc.js") then Some bareStyle
  else None.

(** *** A printer *)
Section Printer.
Variable showIdentifier : Identifier -> string.

Definition showField (fld : string * option Identifier) : string :=
  match snd fld with
  | Some qualifier => " " +:+ showIdentifier qualifier +:+ "." +:+ fst fld
  | None => " " +:+ fst fld
  end.

Definition showDecl (d : decl) : string :=
  match d with
  | EnumDecl n => "enum " +:+ n +:+ ";"
  | MessageDecl n pb fields =>
      "class " +:+ n +:+ " extends " +:+ showIdentifier pb +:+ ".Message {"
      +:+ String.concat "," (map showField fields) +:+ " };"
  | InterfaceDecl grpc => "interface extends " +:+ showIdentifier grpc +:+ ";"
  | ServerDecl n grpc => "server " +:+ n +:+ " on " +:+ showIdentifier grpc +:+ ";"
  | ClientDecl n grpc => "client " +:+ n +:+ " on " +:+ showIdentifier grpc +:+ ";"
  end.

Fixpoint showStatement (s : Statement) : string :=
  match s with
  | JSDocComment body => "/** " +:+ body +:+ " */"
  | ImportDeclaration binding specifier =>
      "import * as " +:+ showIdentifier binding +:+ " from " +:+ specifier +:+ ";"
  | Declaration d => showDecl d
  | NamespaceDeclaration scope body =>
      "namespace " +:+ default "undefined" scope +:+ " {"
      +:+ String.concat " " (map showStatement body) +:+ "}"
  end.

Definition print (sourceFile : SourceFile) : string :=
  String.concat " " (map showStatement (statements sourceFile)).

(** The files of this world sit in one directory: [dirname] is always
    [.] and [relative] returns its target. *)
Definition world : Collaborators := {|
  parseInput := parse;
  style := fst;
  grpc_package := snd;
  createEnum := fun _ e => EnumDecl e;
  createMessage := translateMessage;
  preprocess := fun _ path _ (seen : list string) => (seen ++ [path])%list;
  import_ := load;
  dirname := fun _ => ".";
  relative := fun _ target => target;
  printFile := print;
|}.
End Printer.

(** Identifiers printed with their id, and with their base text only. *)
Definition showWithId (i : Identifier) : string :=
  text i +:+ "_" +:+ NilZero.string_of_uint (Nat.to_uint (autoGenerateId i)).

Definition traced : Collaborators := world showWithId.
Definition plain : Collaborators := world text.

(** The state of a fresh process. *)
Definition start : Globals :=
  {| tables := {| dependencyMap := ∅; symbols := [] |}; nextAutoGenerateId := 0 |}.

Definition version : Version :=
  {| major := Some 3%Z; minor := Some 21%Z; patch := None |}.

(** [common.proto] declares an enum; [a.proto] and [b.proto] both
    import it, and [b.proto] also imports [other.proto]. *)
Definition common : FileDescriptorProto :=
  {| name := "common.proto"; package := Some "x.y"; dependency := [];
     enum_type := ["Color"]; message_type := []; service := [] |}.

Definition other : FileDescriptorProto :=
  {| name := "other.proto"; package := None; dependency := [];
     enum_type := []; message_type := [("U", [])]; service := [] |}.

Definition a : FileDescriptorProto :=
  {| name := "a.proto"; package := Some "x.y"; dependency := ["common.proto"];
     enum_type := []; message_type := [("A", ["common.proto"])];
     service := ["Greeter"] |}.

Definition b : FileDescriptorProto :=
  {| name := "b.proto"; package := None;
     dependency := ["common.proto"; "other.proto"];
     enum_type := [];
     message_type := [("B", ["common.proto"; "other.proto"])];
     service := [] |}.

Definition batch (styleName : string) : CodeGeneratorRequest :=
  {| parameter := styleName; proto_file := [common; other; a; b];
     compiler_version := version |}.
End Demo.

(** ** Closed forms of the run

    What the steps of [main] amount to, written without the monad; the
    lemmas below connect them to [main]. *)
Section ClosedForms.
Context `{Collaborators}.

(** The two identifiers [main] creates first, in a run that starts in
    state [g]. *)
Definition pbOf (g : Globals) : Identifier :=
  {| text := "pb"; autoGenerateId := nextAutoGenerateId g |}.

Definition grpcOf (g : Globals) : Identifier :=
  {| text := "grpc"; autoGenerateId := S (nextAutoGenerateId g) |}.

Definition optionsOf (request : CodeGeneratorRequest) : Options :=
  parseInput (parameter request).

(** The symbol tables after the [preprocess] loop (lines 87-90). *)
Definition preprocessAll (files : list FileDescriptorProto) (s : SymbolTable) : SymbolTable :=
  foldl (fun acc protoFile =>
           preprocess protoFile (name protoFile)
             ("." +:+ default EmptyString (package protoFile)) acc)
        s files.

(** The state in which the first file is compiled. *)
Definition loopEntry (request : CodeGeneratorRequest) (g : Globals) : Globals :=
  {| tables := {| dependencyMap := dependencyMap (tables g);
                  symbols := preprocessAll (proto_file request) (symbols (tables g)) |};
     nextAutoGenerateId := S (S (nextAutoGenerateId g)) |}.

(** The state in which [main] stops when the style cannot be loaded. *)
Definition aborted (g : Globals) : Globals :=
  {| tables := tables g; nextAutoGenerateId := S (S (nextAutoGenerateId g)) |}.

(** The source files handed to the printer, in order, and the state
    after the last one. *)
Definition compileAll (request : CodeGeneratorRequest) (rpc : Rpc) (g : Globals)
    : list SourceFile * Globals :=
  arrayMap (generatedSource request (optionsOf request) rpc (pbOf g) (grpcOf g))
    (proto_file request) (loopEntry request g).

Definition sources (request : CodeGeneratorRequest) (rpc : Rpc) (g : Globals)
    : list SourceFile :=
  fst (compileAll request rpc g).

(** Lines 115-117: the response entry for schema file [f], given the
    source file built for it. *)
Definition emit (f : FileDescriptorProto) (sourceFile : SourceFile) : File :=
  {| file_name := replaceExtension (name f) ".ts"; content := printFile sourceFile |}.

(** The alias of the dependency import that draws id [n]. *)
Definition alias (n : nat) : Identifier :=
  {| text := "dependency"; autoGenerateId := n |}.

Definition dependencySpecifier (f : FileDescriptorProto) (dep : string) : string :=
  "./" +:+ relative (dirname (name f)) (replaceExtension dep EmptyString).

(** The dependency imports of [f] when the counter stands at [n]. *)
Definition importsAt (n : nat) (f : FileDescriptorProto) : list Statement :=
  imap (fun k dep => createImport (alias (n + k)) (dependencySpecifier f dep))
       (dependency f).

(** The dependency table after the imports of a file were made from
    counter value [n], starting from table [m]. *)
Fixpoint bindAliases (n : nat) (deps : list string) (m : gmap string Identifier)
    : gmap string Identifier :=
  match deps with
  | [] => m
  | dep :: rest => bindAliases (S n) rest (<[dep := alias n]> m)
  end.

(** The tables a file leaves behind. *)
Definition tablesAfter (f : FileDescriptorProto) (g : Globals) : TypeTables :=
  {| dependencyMap := bindAliases (nextAutoGenerateId g) (dependency f) ∅;
     symbols := symbols (tables g) |}.

Definition stateAfter (f : FileDescriptorProto) (g : Globals) : Globals :=
  {| tables := tablesAfter f g;
     nextAutoGenerateId := nextAutoGenerateId g + length (dependency f) |}.

(** The statements after the imports: wrapped or not. *)
Definition bodyOf (options : Options) (rpc : Rpc) (pb grpc : Identifier)
    (f : FileDescriptorProto) (g : Globals) : list Statement :=
  if wraps rpc (tablesAfter f g) f
  then [createNamespace (package f) (fileStatements options rpc pb grpc (tables g) f)]
  else fileStatements options rpc pb grpc (tables g) f.

(** The import bindings of a source file, in order. *)
Definition importOf (s : Statement) : option Identifier :=
  match s with ImportDeclaration i _ => Some i | _ => None end.

Definition importBindings (sourceFile : SourceFile) : list Identifier :=
  omap importOf (statements sourceFile).

(** The number of dependency imports a list of files asks for. *)
Fixpoint aliasCount (files : list FileDescriptorProto) : nat :=
  match files with
  | [] => 0
  | f :: rest => length (dependency f) + aliasCount rest
  end.

(** The state in which the file at position [i] is reached. *)
Definition stateAt (request : CodeGeneratorRequest) (rpc : Rpc) (g : Globals) (i : nat)
    : Globals :=
  snd (arrayMap (generatedSource request (optionsOf request) rpc (pbOf g) (grpcOf g))
         (take i (proto_file request)) (loopEntry request g)).



(** The declarations of lines 96-111, before they become statements. *)
Definition serviceDecls (options : Options) (rpc : Rpc) (grpc : Identifier)
    (t : TypeTables) (f : FileDescriptorProto) (svc : ServiceDescriptorProto) : list Decl :=
  match createUnimplementedServer rpc with
  | Some create => [create t f svc grpc]
  | None => []
  end
  ++ match createServiceClient rpc with
     | Some create => [create t f svc grpc options]
     | None => []
     end.

Definition fileDecls (options : Options) (rpc : Rpc) (pb grpc : Identifier)
    (t : TypeTables) (f : FileDescriptorProto) : list Decl :=
  map (createEnum t) (enum_type f)
  ++ flat_map (fun message => createMessage t f message pb) (message_type f)
  ++ match createGrpcInterfaceType rpc with
     | Some create => create t grpc
     | None => []
     end
  ++ flat_map (serviceDecls options rpc grpc t f) (service f).

Definition isDeclaration (s : Statement) : bool :=
  match s with Declaration _ => true | _ => false end.

Definition isNamespace (s : Statement) : bool :=
  match s with NamespaceDeclaration _ _ => true | _ => false end.
(** What every compiled source file looks like: [gi] is the state in
    which its schema file was reached. *)
Definition compiledIn (request : CodeGeneratorRequest) (rpc : Rpc) (g gi : Globals)
    (f : FileDescriptorProto) (sourceFile : SourceFile) : Prop :=
  S (S (nextAutoGenerateId g)) <= nextAutoGenerateId gi /\
  symbols (tables gi) = preprocessAll (proto_file request) (symbols (tables g)) /\
  statements sourceFile =
    ([createComment f (compiler_version request)]
     ++ importsAt (nextAutoGenerateId gi) f
     ++ [createImport (pbOf g) "google-protobuf";
         createImport (grpcOf g) (grpc_package (optionsOf request))]
     ++ bodyOf (optionsOf request) rpc (pbOf g) (grpcOf g) f gi)%list.
End ClosedForms.

(** ** Two runs whose unique ids differ

    A second run of the compiler draws its unique names from a counter
    that may stand elsewhere: every id of the second run is the id of the
    first, displaced by [d].  The definitions below say what it means for
    the collaborators not to care: they treat an identifier as an opaque
    name. *)
Section Renaming.
Context `{Collaborators}.

(** How an identifier inside a translated declaration is replaced. *)
Variable renameDecl : (Identifier -> Identifier) -> Decl -> Decl.

Definition shiftId (d : nat) (i : Identifier) : Identifier :=
  {| text := text i; autoGenerateId := d + autoGenerateId i |}.

Fixpoint renameStatement (rho : Identifier -> Identifier) (s : Statement) : Statement :=
  match s with
  | JSDocComment c => JSDocComment c
  | ImportDeclaration i m => ImportDeclaration (rho i) m
  | Declaration x => Declaration (renameDecl rho x)
  | NamespaceDeclaration scope body =>
      NamespaceDeclaration scope (map (renameStatement rho) body)
  end.

Definition renameSource (rho : Identifier -> Identifier) (sourceFile : SourceFile)
    : SourceFile :=
  {| statements := map (renameStatement rho) (statements sourceFile) |}.

Definition shiftTables (d : nat) (t : TypeTables) : TypeTables :=
  {| dependencyMap := shiftId d <$> dependencyMap t; symbols := symbols t |}.

Definition shiftGlobals (d : nat) (g : Globals) : Globals :=
  {| tables := shiftTables d (tables g);
     nextAutoGenerateId := d + nextAutoGenerateId g |}.

(** A style whose operations commute with the displacement. *)
Definition uniformStyle (d : nat) (rpc : Rpc) : Prop :=
  (forall create, createServiceClient rpc = Some create ->
     forall t f svc grpc o,
       create (shiftTables d t) f svc (shiftId d grpc) o
       = renameDecl (shiftId d) (create t f svc grpc o)) /\
  (forall create, createUnimplementedServer rpc = Some create ->
     forall t f svc grpc,
       create (shiftTables d t) f svc (shiftId d grpc)
       = renameDecl (shiftId d) (create t f svc grpc)) /\
  (forall create, createGrpcInterfaceType rpc = Some create ->
     forall t grpc,
       create (shiftTables d t) (shiftId d grpc)
       = map (renameDecl (shiftId d)) (create t grpc)) /\
  (forall query, wrapInNamespace rpc = Some query ->
     forall t f, query (shiftTables d t) f = query t f).

(** Translators, styles and printer that do not look at the ids. *)
Record Uniform (d : nat) : Prop := {
  enum_uniform : forall t e,
    createEnum (shiftTables d t) e = renameDecl (shiftId d) (createEnum t e);
  message_uniform : forall t f m pb,
    createMessage (shiftTables d t) f m (shiftId d pb)
    = map (renameDecl (shiftId d)) (createMessage t f m pb);
  style_uniform : forall specifier rpc,
    import_ specifier = Some rpc -> uniformStyle d rpc;
  printer_uniform : forall sourceFile,
    printFile (renameSource (shiftId d) sourceFile) = printFile sourceFile;
}.
End Renaming.

(** ** A run to refer to *)
Section SampleRun.
#[local] Existing Instance Demo.types.
#[local] Existing Instance Demo.traced.

(** The run of the four-file batch under the style with every
    operation, and what it ends with. *)
Definition fullResponse : CodeGeneratorResponse :=
  Eval vm_compute in
    default {| file := [] |} (fst (main (Demo.batch "full") Demo.start)).

Definition fullEnd : Globals :=
  Eval vm_compute in snd (main (Demo.batch "full") Demo.start).
End SampleRun.

(** ** Properties *)
Section Properties.
Context `{Collaborators}.

(** Induction over statements that also reaches into namespace bodies. *)
Lemma Statement_nested_ind (P : Statement -> Prop) :
  (forall c, P (JSDocComment c)) ->
  (forall i m, P (ImportDeclaration i m)) ->
  (forall x, P (Declaration x)) ->
  (forall scope body, Forall P body -> P (NamespaceDeclaration scope body)) ->
  forall s, P s.
Proof.
  intros Hc Hi Hd Hn. fix IH 1. intros [c|i m|x|scope body].
  - apply Hc.
  - apply Hi.
  - apply Hd.
  - apply Hn. induction body as [|s body IHbody]; constructor.
    + apply IH.
    + exact IHbody.
Qed.

Lemma arrayMap_Forall2 {A B} (callback : A -> M B)
    (Inv : Globals -> Prop) (P : A -> B -> Prop) :
  (forall x g, Inv g -> P x (callback x g).1 /\ Inv (callback x g).2) ->
  forall xs g, Inv g ->
    Forall2 P xs (arrayMap callback xs g).1 /\ Inv (arrayMap callback xs g).2.
Proof.
  intros Hstep xs. induction xs as [|x xs IH]; intros g Hg; simpl.
  - split; [constructor | exact Hg].
  - unfold bind, ret.
    destruct (Hstep x g Hg) as [Hx Hg1].
    destruct (callback x g) as [y g1]. simpl in Hx, Hg1.
    destruct (IH g1 Hg1) as [Hxs Hg2].
    destruct (arrayMap callback xs g1) as [ys g2]. simpl in *.
    split; [constructor; assumption | assumption].
Qed.

Lemma arrayMap_length {A B} (callback : A -> M B) xs g :
  length (arrayMap callback xs g).1 = length xs.
Proof.
  destruct (arrayMap_Forall2 callback (fun _ => True) (fun _ _ => True)
              (fun _ _ _ => conj I I) xs g I) as [HF _].
  symmetry. exact (Forall2_length _ _ _ HF).
Qed.

Lemma forOf_preprocess files g :
  forOf (fun protoFile =>
           runPreprocess protoFile (name protoFile)
             ("." +:+ default EmptyString (package protoFile))) files g
  = (tt, {| tables := {| dependencyMap := dependencyMap (tables g);
                         symbols := preprocessAll files (symbols (tables g)) |};
            nextAutoGenerateId := nextAutoGenerateId g |}).
Proof.
  revert g. induction files as [|f files IH]; intros g; simpl.
  - destruct g as [[dm sy] n]; reflexivity.
  - unfold bind, runPreprocess at 1. rewrite IH. reflexivity.
Qed.

Lemma dependencyImports_run f deps g :
  arrayMap (dependencyImport f) deps g
  = (imap (fun k dep => createImport (alias (nextAutoGenerateId g + k))
                          (dependencySpecifier f dep)) deps,
     {| tables := {| dependencyMap :=
                       bindAliases (nextAutoGenerateId g) deps (dependencyMap (tables g));
                     symbols := symbols (tables g) |};
        nextAutoGenerateId := nextAutoGenerateId g + length deps |}).
Proof.
  revert g. induction deps as [|dep deps IH]; intros g; simpl.
  - rewrite Nat.add_0_r. destruct g as [[dm sy] n]; reflexivity.
  - unfold bind at 1. unfold dependencyImport at 1.
    unfold bind, createUniqueName, setIdentifierForDependency, ret. simpl.
    rewrite IH. simpl. rewrite Nat.add_0_r.
    f_equal.
    + f_equal. apply imap_ext. intros k d _. simpl.
      replace (S (nextAutoGenerateId g + k)) with (nextAutoGenerateId g + S k) by lia.
      reflexivity.
    + f_equal. lia.
Qed.

(** One file: the source file and the state it leaves. *)
Lemma generatedSource_run request options rpc pb grpc f g :
  generatedSource request options rpc pb grpc f g
  = ({| statements :=
          [createComment f (compiler_version request)]
          ++ importsAt (nextAutoGenerateId g) f
          ++ [createImport pb "google-protobuf";
              createImport grpc (grpc_package options)]
          ++ bodyOf options rpc pb grpc f g |},
     stateAfter f g).
Proof.
  unfold generatedSource, bind, getTables, resetDependencyMap, ret.
  rewrite dependencyImports_run. simpl. reflexivity.
Qed.

Lemma generatedFile_run request options rpc pb grpc f g :
  generatedFile request options rpc pb grpc f g
  = (emit f (generatedSource request options rpc pb grpc f g).1,
     (generatedSource request options rpc pb grpc f g).2).
Proof.
  unfold generatedFile, bind, ret.
  destruct (generatedSource request options rpc pb grpc f g); reflexivity.
Qed.

Lemma generatedFiles_run request options rpc pb grpc files g :
  arrayMap (generatedFile request options rpc pb grpc) files g
  = (zip_with emit files
       (arrayMap (generatedSource request options rpc pb grpc) files g).1,
     (arrayMap (generatedSource request options rpc pb grpc) files g).2).
Proof.
  revert g. induction files as [|f files IH]; intros g; simpl; [reflexivity|].
  unfold bind at 1 3 5. rewrite generatedFile_run.
  destruct (generatedSource request options rpc pb grpc f g) as [sf g1]. simpl.
  unfold bind, ret. rewrite IH.
  destruct (arrayMap (generatedSource request options rpc pb grpc) files g1).
  reflexivity.
Qed.

(** The whole of [main], in closed form. *)
Lemma main_run request g :
  main request g
  = match import_ (stylePath (optionsOf request)) with
    | None => (None, aborted g)
    | Some rpc =>
        (Some {| file := zip_with emit (proto_file request) (sources request rpc g) |},
         (compileAll request rpc g).2)
    end.
Proof.
  unfold main, bind, createUniqueName. simpl.
  fold (optionsOf request).
  destruct (import_ (stylePath (optionsOf request))) as [rpc|]; [|reflexivity].
  rewrite forOf_preprocess. simpl.
  unfold sources, compileAll, loopEntry, pbOf, grpcOf.
  rewrite generatedFiles_run. reflexivity.
Qed.

Lemma sources_compiled request rpc g :
  Forall2 (fun f sourceFile => exists gi, compiledIn request rpc g gi f sourceFile)
    (proto_file request) (sources request rpc g).
Proof.
  unfold sources, compileAll.
  refine (proj1 (arrayMap_Forall2 _
    (fun gi => S (S (nextAutoGenerateId g)) <= nextAutoGenerateId gi /\
               symbols (tables gi)
               = preprocessAll (proto_file request) (symbols (tables g)))
    _ _ (proto_file request) (loopEntry request g) _)).
  - intros f gi [Hn Hs]. rewrite generatedSource_run. simpl. split.
    + exists gi. repeat split; assumption.
    + split; [lia | exact Hs].
  - simpl. split; [lia | reflexivity].
Qed.

Lemma sources_length request rpc g :
  length (sources request rpc g) = length (proto_file request).
Proof. apply arrayMap_length. Qed.

Lemma main_response request g response g' :
  main request g = (Some response, g') ->
  exists rpc,
    import_ (stylePath (optionsOf request)) = Some rpc /\
    file response = zip_with emit (proto_file request) (sources request rpc g).
Proof.
  rewrite main_run.
  destruct (import_ (stylePath (optionsOf request))) as [rpc|]; [|discriminate].
  intros [= <- _]. exists rpc. split; reflexivity.
Qed.

(** The response entry at the position of schema file [f]. *)
Lemma main_entry request g response g' i f :
  main request g = (Some response, g') ->
  proto_file request !! i = Some f ->
  exists rpc sourceFile gi,
    import_ (stylePath (optionsOf request)) = Some rpc /\
    file response !! i = Some (emit f sourceFile) /\
    compiledIn request rpc g gi f sourceFile.
Proof.
  intros Hmain Hf.
  destruct (main_response _ _ _ _ Hmain) as (rpc & Himport & Hfiles).
  pose proof (sources_compiled request rpc g) as HF.
  destruct (Forall2_lookup_l _ _ _ _ _ HF Hf) as (sf & Hsf & gi & Hgi).
  exists rpc, sf, gi. split; [exact Himport|]. split; [|exact Hgi].
  rewrite Hfiles, lookup_zip_with, Hf. simpl. rewrite Hsf. reflexivity.
Qed.

(** *** Strings *)

Lemma append_empty_r (s : string) : s +:+ EmptyString = s.
Proof.
  induction s as [|c s IH]; [reflexivity|].
  change (String c (s +:+ EmptyString) = String c s). rewrite IH. reflexivity.
Qed.

Lemma append_assoc (s t u : string) : (s +:+ t) +:+ u = s +:+ t +:+ u.
Proof.
  induction s as [|c s IH]; [reflexivity|].
  change (String c ((s +:+ t) +:+ u) = String c (s +:+ t +:+ u)).
  rewrite IH. reflexivity.
Qed.

Lemma append_length (s t : string) :
  String.length (s +:+ t) = String.length s + String.length t.
Proof.
  induction s as [|c s IH]; [reflexivity|].
  change (S (String.length (s +:+ t)) = S (String.length s + String.length t)).
  rewrite IH. reflexivity.
Qed.

Lemma append_cancel_l (s t u : string) : s +:+ t = s +:+ u -> t = u.
Proof.
  induction s as [|c s IH]; [auto|].
  change (String c (s +:+ t) = String c (s +:+ u) -> t = u).
  intros [= Heq]. apply IH, Heq.
Qed.

Lemma append_cancel_r (s t u : string) : s +:+ u = t +:+ u -> s = t.
Proof.
  revert t. induction s as [|c s IH]; intros [|c' t] Heq.
  - reflexivity.
  - exfalso. apply (f_equal String.length) in Heq.
    rewrite !append_length in Heq. simpl in Heq. lia.
  - exfalso. apply (f_equal String.length) in Heq.
    rewrite !append_length in Heq. simpl in Heq. lia.
  - change (String c (s +:+ u) = String c' (t +:+ u)) in Heq.
    injection Heq as -> Heq. f_equal. apply IH, Heq.
Qed.

(** *** Output names *)

Lemma extensionChars_dot s t :
  extensionChars (s +:+ String "."%char t) = false.
Proof.
  induction s as [|c s IH]; simpl.
  - reflexivity.
  - rewrite IH. apply andb_false_r.
Qed.

Lemma extensionAt_before_dot c s t :
  extensionAt (String c (s +:+ String "."%char t)) = false.
Proof.
  destruct s as [|c' s]; simpl.
  - rewrite andb_false_r. reflexivity.
  - rewrite extensionChars_dot, !andb_false_r. reflexivity.
Qed.

Lemma getSubstitution_dollarFree matched before after replacement :
  dollarFree replacement = true ->
  getSubstitution matched before after replacement = replacement.
Proof.
  induction replacement as [|c tail IH]; intros Hfree; [reflexivity|].
  simpl in Hfree. apply andb_true_iff in Hfree as [Hc Htail].
  apply negb_true_iff in Hc. cbn [getSubstitution]. rewrite Hc, IH by exact Htail.
  reflexivity.
Qed.

(** A name [stem.ext]: the match is [.ext], and [stem] precedes it. *)
Lemma replaceAt_last_dot before stem ext extension :
  ext <> EmptyString ->
  extensionChars ext = true ->
  replaceAt before (stem +:+ "." +:+ ext) extension
  = stem +:+ getSubstitution ("." +:+ ext) (before +:+ stem) EmptyString extension.
Proof.
  intros Hne Hext. revert before. induction stem as [|c stem IH]; intros before.
  - destruct ext as [|c ext]; [congruence|].
    rewrite append_empty_r.
    change (EmptyString +:+ "." +:+ String c ext) with (String "."%char (String c ext)).
    cbn [replaceAt]. simpl in Hext.
    assert (extensionAt (String "."%char (String c ext)) = true) as ->
      by (simpl; rewrite Hext; reflexivity).
    reflexivity.
  - change (String c stem +:+ "." +:+ ext)
      with (String c (stem +:+ String "."%char ext)).
    cbn [replaceAt]. rewrite extensionAt_before_dot.
    change (stem +:+ String "."%char ext) with (stem +:+ "." +:+ ext).
    rewrite IH, append_assoc. reflexivity.
Qed.

Lemma replaceExtension_last_dot_any stem ext extension :
  ext <> EmptyString ->
  extensionChars ext = true ->
  replaceExtension (stem +:+ "." +:+ ext) extension
  = stem +:+ getSubstitution ("." +:+ ext) stem EmptyString extension.
Proof. intros Hne Hext. apply (replaceAt_last_dot EmptyString); assumption. Qed.

Lemma replaceExtension_last_dot stem ext extension :
  dollarFree extension = true ->
  ext <> EmptyString ->
  extensionChars ext = true ->
  replaceExtension (stem +:+ "." +:+ ext) extension = stem +:+ extension.
Proof.
  intros Hfree Hne Hext.
  rewrite replaceExtension_last_dot_any, getSubstitution_dollarFree by assumption.
  reflexivity.
Qed.

Lemma replaceAt_no_extension before filename extension :
  (forall stem ext, filename = stem +:+ "." +:+ ext ->
     ext <> EmptyString -> extensionChars ext = true -> False) ->
  replaceAt before filename extension = filename.
Proof.
  revert before. induction filename as [|c rest IH]; intros before Hnone; [reflexivity|].
  cbn [replaceAt].
  destruct (extensionAt (String c rest)) eqn:Hat.
  - exfalso. destruct rest as [|c' rest]; [discriminate|]. simpl in Hat.
    apply andb_true_iff in Hat as [Hat Hrest].
    apply andb_true_iff in Hat as [Hdot Hc'].
    apply Ascii.eqb_eq in Hdot. subst c.
    apply (Hnone EmptyString (String c' rest)).
    + reflexivity.
    + discriminate.
    + simpl. rewrite Hc', Hrest. reflexivity.
  - rewrite IH; [reflexivity|].
    intros stem ext -> Hne Hext. apply (Hnone (String c stem) ext); auto.
Qed.

(** A name that is not of the form [stem.ext] is returned as it is. *)
Lemma replaceExtension_no_extension filename extension :
  (forall stem ext, filename = stem +:+ "." +:+ ext ->
     ext <> EmptyString -> extensionChars ext = true -> False) ->
  replaceExtension filename extension = filename.
Proof. apply replaceAt_no_extension. Qed.

(** In particular a name without dot and slash. *)
Lemma replaceExtension_without_dot filename extension :
  extensionChars filename = true ->
  replaceExtension filename extension = filename.
Proof.
  intros Hc. apply replaceExtension_no_extension. intros stem ext -> _ _.
  change (stem +:+ "." +:+ ext) with (stem +:+ String "."%char ext) in Hc.
  rewrite extensionChars_dot in Hc. discriminate.
Qed.

(** C2. The response has one generated file per schema file of the
    request, at the same position: the lists have equal length, the
    file at position [i] is named after the schema file at position [i],
    and its content is the print of a source file that opens with the
    header comment of that schema file. *)
Theorem response_follows_input_order request g response g' :
  main request g = (Some response, g') ->
  length (file response) = length (proto_file request) /\
  map file_name (file response)
    = map (fun f => replaceExtension (name f) ".ts") (proto_file request) /\
  forall i f, proto_file request !! i = Some f ->
    exists sourceFile rest,
      file response !! i
        = Some {| file_name := replaceExtension (name f) ".ts";
                  content := printFile sourceFile |} /\
      statements sourceFile = createComment f (compiler_version request) :: rest.
Proof.
  intros Hmain.
  destruct (main_response _ _ _ _ Hmain) as (rpc & _ & Hfiles).
  pose proof (sources_length request rpc g) as Hlen.
  split; [|split].
  - rewrite Hfiles, length_zip_with. lia.
  - rewrite Hfiles. revert Hlen.
    generalize (sources request rpc g) as sfs. generalize (proto_file request) as fs.
    induction fs as [|f fs IH]; intros [|sf sfs] Hl; simpl in *; try discriminate.
    + reflexivity.
    + f_equal. apply IH. lia.
  - intros i f Hf.
    destruct (main_entry _ _ _ _ _ _ Hmain Hf)
      as (rpc' & sf & gi & _ & Hentry & _ & _ & Hst).
    exists sf. eexists. split; [exact Hentry | exact Hst].
Qed.

(** C8. The generated file of a schema file named [stem.ext], where
    [ext] is a non-empty extension (no dot, no slash), is named
    [stem.ts]: the extension is replaced and the directories of [stem]
    stay as they are. *)
Theorem output_name_replaces_extension request g response g' i f stem ext :
  main request g = (Some response, g') ->
  proto_file request !! i = Some f ->
  name f = stem +:+ "." +:+ ext ->
  ext <> EmptyString ->
  extensionChars ext = true ->
  exists out, file response !! i = Some out /\ file_name out = stem +:+ ".ts".
Proof.
  intros Hmain Hf Hname Hne Hext.
  destruct (main_entry _ _ _ _ _ _ Hmain Hf) as (rpc & sf & gi & _ & Hentry & _).
  exists (emit f sf). split; [exact Hentry|].
  simpl. rewrite Hname. apply replaceExtension_last_dot; [reflexivity | assumption ..].
Qed.

(** *** The statements of a file are the translators' declarations *)

Lemma flat_map_map {A B C} (h : A -> list B) (k : B -> C) (l : list A) :
  flat_map (fun x => map k (h x)) l = map k (flat_map h l).
Proof.
  induction l as [|x l IH]; simpl; [reflexivity|].
  rewrite IH, map_app. reflexivity.
Qed.

Lemma fileStatements_decls options rpc pb grpc t f :
  fileStatements options rpc pb grpc t f
  = map Declaration (fileDecls options rpc pb grpc t f).
Proof.
  unfold fileStatements, fileDecls. rewrite !map_app, map_map, !flat_map_map.
  do 4 f_equal. apply flat_map_ext. intros svc.
  unfold serviceDecls, defined.
  destruct (createUnimplementedServer rpc), (createServiceClient rpc); reflexivity.
Qed.

Lemma filter_nothing {A} (p : A -> bool) (l : list A) :
  Forall (fun x => p x = false) l -> List.filter p l = [].
Proof.
  induction 1 as [|x l Hx _ IH]; simpl; [reflexivity|]. rewrite Hx. exact IH.
Qed.

Lemma filter_everything {A} (p : A -> bool) (l : list A) :
  Forall (fun x => p x = true) l -> List.filter p l = l.
Proof.
  induction 1 as [|x l Hx _ IH]; simpl; [reflexivity|]. rewrite Hx, IH. reflexivity.
Qed.

Lemma Forall_imap {A B} (P : B -> Prop) (h : nat -> A -> B) (l : list A) :
  (forall k x, l !! k = Some x -> P (h k x)) -> Forall P (imap h l).
Proof.
  revert h. induction l as [|x l IH]; intros h Hh; simpl; constructor.
  - apply (Hh 0 x). reflexivity.
  - apply IH. intros k y Hk. apply (Hh (S k) y). exact Hk.
Qed.

(** Every name either has an extension, which is then unique, or has
    none. *)
Lemma extension_or_none filename :
  (exists stem ext, filename = stem +:+ "." +:+ ext /\
     ext <> EmptyString /\ extensionChars ext = true) \/
  (forall stem ext, filename = stem +:+ "." +:+ ext ->
     ext <> EmptyString -> extensionChars ext = true -> False).
Proof.
  induction filename as [|c rest IH].
  - right. intros [|c stem] ext Heq; discriminate.
  - destruct (extensionAt (String c rest)) eqn:Hat.
    + left. destruct rest as [|c' rest]; [discriminate|]. simpl in Hat.
      apply andb_true_iff in Hat as [Hat Hrest].
      apply andb_true_iff in Hat as [Hdot Hc'].
      apply Ascii.eqb_eq in Hdot. subst c.
      exists EmptyString, (String c' rest). split; [reflexivity|].
      split; [discriminate|]. simpl. rewrite Hc', Hrest. reflexivity.
    + destruct IH as [(stem & ext & -> & Hne & Hext) | Hnone].
      * left. exists (String c stem), ext. repeat split; assumption.
      * right. intros [|c0 stem] ext Heq Hne Hext.
        -- simpl in Heq. injection Heq as -> ->.
           destruct ext as [|c' ext]; [congruence|]. simpl in Hat, Hext.
           rewrite Hext in Hat. discriminate.
        -- simpl in Heq. injection Heq as -> ->. eapply Hnone; eauto.
Qed.






(** *** Namespace wrapping *)

Lemma imports_not p n f :
  (forall i m, p (ImportDeclaration i m) = false) ->
  List.filter p (importsAt n f) = [].
Proof.
  intros Hp. apply filter_nothing, Forall_imap. intros k dep _. apply Hp.
Qed.

Lemma wraps_true rpc t f :
  wraps rpc t f = true <->
  exists query, wrapInNamespace rpc = Some query /\ query t f = true.
Proof.
  unfold wraps. destruct (wrapInNamespace rpc) as [query|]; split.
  - intros Hq. exists query. split; [reflexivity | exact Hq].
  - intros (q & [= <-] & Hq). exact Hq.
  - discriminate.
  - intros (q & Hq & _). discriminate.
Qed.

Lemma wraps_false rpc t f :
  wraps rpc t f = false <->
  wrapInNamespace rpc = None \/
  exists query, wrapInNamespace rpc = Some query /\ query t f = false.
Proof.
  unfold wraps. destruct (wrapInNamespace rpc) as [query|]; split.
  - intros Hq. right. exists query. split; [reflexivity | exact Hq].
  - intros [Hq | (q & [= <-] & Hq)]; [discriminate | exact Hq].
  - intros _. left. reflexivity.
  - reflexivity.
Qed.

Lemma filter_declarations (decls : list Decl) :
  List.filter isDeclaration (map Declaration decls) = map Declaration decls.
Proof. apply filter_everything, Forall_map, Forall_true. reflexivity. Qed.

Lemma filter_no_namespace (decls : list Decl) :
  List.filter isNamespace (map Declaration decls) = [].
Proof. apply filter_nothing, Forall_map, Forall_true. reflexivity. Qed.

(** C6. The declarations of a generated file sit inside one namespace
    block named by the schema's package exactly when the style has a
    [wrapInNamespace] query and the query answers true for the file;
    when the query is absent or answers false they are all top-level
    statements, and no namespace block is made.  The query is put when
    the table holds the aliases of the file's own imports. *)
Theorem namespace_iff_backend_wraps request g response g' :
  main request g = (Some response, g') ->
  exists rpc,
    import_ (stylePath (optionsOf request)) = Some rpc /\
    file response = zip_with emit (proto_file request) (sources request rpc g) /\
    Forall2 (fun f sourceFile => exists n t,
        let t' := {| dependencyMap := bindAliases n (dependency f) ∅;
                     symbols := preprocessAll (proto_file request) (symbols (tables g)) |} in
        let declarations :=
          map Declaration
            (fileDecls (optionsOf request) rpc (pbOf g) (grpcOf g) t f) in
        ((exists query, wrapInNamespace rpc = Some query /\ query t' f = true) <->
         List.filter isNamespace (statements sourceFile)
           = [createNamespace (package f) declarations] /\
         List.filter isDeclaration (statements sourceFile) = []) /\
        ((wrapInNamespace rpc = None \/
          exists query, wrapInNamespace rpc = Some query /\ query t' f = false) <->
         List.filter isNamespace (statements sourceFile) = [] /\
         List.filter isDeclaration (statements sourceFile) = declarations))
      (proto_file request) (sources request rpc g).
Proof.
  intros Hmain.
  destruct (main_response _ _ _ _ Hmain) as (rpc & Himport & Hfiles).
  exists rpc. split; [exact Himport|]. split; [exact Hfiles|].
  eapply Forall2_impl; [apply sources_compiled|].
  intros f sf (gi & _ & Hsym & Hst).
  exists (nextAutoGenerateId gi), (tables gi). cbv zeta.
  rewrite <- Hsym. fold (tablesAfter f gi).
  rewrite <- wraps_true, <- wraps_false, Hst, !List.filter_app.
  rewrite !imports_not by reflexivity.
  unfold bodyOf. rewrite fileStatements_decls.
  destruct (wraps rpc (tablesAfter f gi) f); simpl;
    rewrite ?filter_declarations, ?filter_no_namespace.
  all: split; split;
    first [ discriminate
          | intros [? ?]; discriminate
          | intros _; split; reflexivity
          | intros _; reflexivity ].
Qed.

(** *** Styles that leave operations out *)

(** C5. Whatever subset of the four operations the loaded style has,
    the run completes with a response, and every absent operation
    contributes nothing: per service there is a server declaration only
    if [createUnimplementedServer] exists and a client declaration only
    if [createServiceClient] exists, and shared interfaces only if
    [createGrpcInterfaceType] exists.  With none of the four, every
    generated file holds the header comment, the imports, and the enum
    and message declarations at top level, and nothing else. *)
Theorem absent_operations_are_skipped request g rpc :
  import_ (stylePath (optionsOf request)) = Some rpc ->
  (exists response g',
     main request g = (Some response, g') /\
     file response = zip_with emit (proto_file request) (sources request rpc g)) /\
  (forall pb grpc t f,
     fileStatements (optionsOf request) rpc pb grpc t f
     = (map (fun e => Declaration (createEnum t e)) (enum_type f)
        ++ flat_map (fun m => map Declaration (createMessage t f m pb)) (message_type f)
        ++ map Declaration
             (match createGrpcInterfaceType rpc with
              | Some create => create t grpc
              | None => []
              end)
        ++ flat_map (fun svc =>
             match createUnimplementedServer rpc with
             | Some create => [Declaration (create t f svc grpc)]
             | None => []
             end
             ++ match createServiceClient rpc with
                | Some create => [Declaration (create t f svc grpc (optionsOf request))]
                | None => []
                end) (service f))%list) /\
  (createServiceClient rpc = None ->
   createUnimplementedServer rpc = None ->
   createGrpcInterfaceType rpc = None ->
   wrapInNamespace rpc = None ->
   Forall2 (fun f sourceFile => exists n t,
       statements sourceFile
       = ([createComment f (compiler_version request)]
          ++ importsAt n f
          ++ [createImport (pbOf g) "google-protobuf";
              createImport (grpcOf g) (grpc_package (optionsOf request))]
          ++ map (fun e => Declaration (createEnum t e)) (enum_type f)
          ++ flat_map (fun m => map Declaration (createMessage t f m (pbOf g)))
               (message_type f))%list)
     (proto_file request) (sources request rpc g)).
Proof.
  intros Himport.
  assert (forall pb grpc t f,
     fileStatements (optionsOf request) rpc pb grpc t f
     = (map (fun e => Declaration (createEnum t e)) (enum_type f)
        ++ flat_map (fun m => map Declaration (createMessage t f m pb)) (message_type f)
        ++ map Declaration
             (match createGrpcInterfaceType rpc with
              | Some create => create t grpc
              | None => []
              end)
        ++ flat_map (fun svc =>
             match createUnimplementedServer rpc with
             | Some create => [Declaration (create t f svc grpc)]
             | None => []
             end
             ++ match createServiceClient rpc with
                | Some create => [Declaration (create t f svc grpc (optionsOf request))]
                | None => []
                end) (service f))%list) as Hparts.
  { intros pb grpc t f. unfold fileStatements. do 3 f_equal.
    apply flat_map_ext. intros svc. unfold defined.
    destruct (createUnimplementedServer rpc), (createServiceClient rpc); reflexivity. }
  split; [|split].
  - rewrite main_run, Himport. eexists _, _. split; reflexivity.
  - exact Hparts.
  - intros Hclient Hserver Hiface Hwrap.
    eapply Forall2_impl; [apply sources_compiled|].
    intros f sf (gi & _ & _ & Hst).
    exists (nextAutoGenerateId gi), (tables gi). rewrite Hst.
    unfold bodyOf, wraps. rewrite Hwrap, Hparts, Hclient, Hserver, Hiface.
    do 4 f_equal. simpl.
    assert (forall l : list ServiceDescriptorProto,
              flat_map (fun _ => @nil Statement) l = []) as ->
      by (induction l; simpl; auto).
    apply app_nil_r.
Qed.

(** *** Loading the style *)

(** C7. The style is looked up once, under the specifier
    [./style/<style>/rpc.js], after the two runtime aliases are made and
    before any schema file is touched.  When the specifier does not
    resolve the run stops there: no response is written, nothing was
    preprocessed or translated (the tables of [./type.js] are as they
    were).  An absent [style] is looked up as [undefined], and aborts
    the run in the same way.  When the specifier resolves, the one
    style it yields is used for every file of the run. *)
Theorem unresolved_style_aborts_run request g :
  (import_ (stylePath (optionsOf request)) = None ->
     main request g = (None, aborted g) /\ tables (aborted g) = tables g) /\
  (style (optionsOf request) = None ->
     import_ "./style/undefined/rpc.js" = None ->
     main request g = (None, aborted g)) /\
  (forall rpc, import_ (stylePath (optionsOf request)) = Some rpc ->
     fst (main request g)
     = Some {| file := zip_with emit (proto_file request) (sources request rpc g) |}).
Proof.
  split; [|split].
  - intros Himport. rewrite main_run, Himport. split; reflexivity.
  - intros Hstyle Himport. rewrite main_run.
    assert (stylePath (optionsOf request) = "./style/undefined/rpc.js") as ->
      by (unfold stylePath; rewrite Hstyle; reflexivity).
    rewrite Himport. reflexivity.
  - intros rpc Himport. rewrite main_run, Himport. reflexivity.
Qed.

(** *** The aliases of a run *)

Lemma importBindings_imports (spec : string -> string) deps n :
  omap importOf (imap (fun k dep => createImport (alias (n + k)) (spec dep)) deps)
  = map alias (seq n (length deps)).
Proof.
  revert n. induction deps as [|dep deps IH]; intros n; [reflexivity|].
  cbn [imap length seq map]. unfold omap at 1. cbn [list_omap importOf createImport].
  rewrite Nat.add_0_r. f_equal.
  rewrite <- IH. fold (omap (M := list) importOf). f_equal.
  apply imap_ext. intros k d _. simpl. f_equal. f_equal. lia.
Qed.

Lemma importBindings_body options rpc pb grpc f gi :
  omap importOf (bodyOf options rpc pb grpc f gi) = [].
Proof.
  unfold bodyOf. destruct (wraps rpc (tablesAfter f gi) f); [reflexivity|].
  rewrite fileStatements_decls.
  induction (fileDecls options rpc pb grpc (tables gi) f) as [|d l IH];
    [reflexivity | exact IH].
Qed.

Lemma importBindings_source request options rpc pb grpc f gi :
  importBindings (generatedSource request options rpc pb grpc f gi).1
  = (map alias (seq (nextAutoGenerateId gi) (length (dependency f))) ++ [pb; grpc])%list.
Proof.
  rewrite generatedSource_run. unfold importBindings. simpl.
  fold (omap (M := list) importOf).
  rewrite !omap_app. unfold importsAt. rewrite importBindings_imports.
  f_equal. simpl. fold (omap (M := list) importOf).
  rewrite importBindings_body. reflexivity.
Qed.

Lemma aliases_of_run request options rpc pb grpc files gi :
  exists aliases : list (list Identifier),
    Forall2 (fun sourceFile al => importBindings sourceFile = (al ++ [pb; grpc])%list)
      (arrayMap (generatedSource request options rpc pb grpc) files gi).1 aliases /\
    Forall2 (fun f al => length al = length (dependency f)) files aliases /\
    concat aliases = map alias (seq (nextAutoGenerateId gi) (aliasCount files)).
Proof.
  revert gi. induction files as [|f files IH]; intros gi.
  - exists []. repeat split; constructor.
  - pose proof (importBindings_source request options rpc pb grpc f gi) as Hsf.
    cbn [arrayMap]. unfold bind at 1.
    rewrite generatedSource_run in *. cbn [fst] in Hsf.
    destruct (IH (stateAfter f gi)) as (aliases & Hsources & Hlengths & Hall).
    unfold bind, ret.
    destruct (arrayMap (generatedSource request options rpc pb grpc) files
                (stateAfter f gi)) as [sfs gend].
    exists (map alias (seq (nextAutoGenerateId gi) (length (dependency f))) :: aliases).
    split; [|split].
    + constructor; [exact Hsf | exact Hsources].
    + constructor; [|exact Hlengths]. rewrite length_map, length_seq. reflexivity.
    + cbn [concat aliasCount]. rewrite Hall, seq_app, map_app. reflexivity.
Qed.

(** C10. In one run the aliases [pb] and [grpc] are made once, before
    the loop over the files: the imports of every generated file are its
    dependency aliases, one per declared dependency, followed by that
    same [pb] and that same [grpc].  All the identifiers of the run, the
    two runtime aliases and every dependency alias of every file, carry
    different ids. *)
Theorem runtime_aliases_shared_and_fresh request g response g' :
  main request g = (Some response, g') ->
  exists rpc (aliases : list (list Identifier)),
    import_ (stylePath (optionsOf request)) = Some rpc /\
    file response = zip_with emit (proto_file request) (sources request rpc g) /\
    Forall2 (fun sourceFile al =>
               importBindings sourceFile = (al ++ [pbOf g; grpcOf g])%list)
      (sources request rpc g) aliases /\
    Forall2 (fun f al => length al = length (dependency f))
      (proto_file request) aliases /\
    NoDup (map autoGenerateId (pbOf g :: grpcOf g :: concat aliases)).
Proof.
  intros Hmain.
  destruct (main_response _ _ _ _ Hmain) as (rpc & Himport & Hfiles).
  destruct (aliases_of_run request (optionsOf request) rpc (pbOf g) (grpcOf g)
              (proto_file request) (loopEntry request g))
    as (aliases & Hsources & Hlengths & Hall).
  exists rpc, aliases. repeat (split; [assumption|]).
  rewrite Hall. cbn [map pbOf grpcOf autoGenerateId loopEntry nextAutoGenerateId].
  rewrite map_map. cbn [alias autoGenerateId]. rewrite map_id.
  change (NoDup (seq (nextAutoGenerateId g) (S (S (aliasCount (proto_file request)))))).
  apply NoDup_seq.
Qed.

(** *** The tables a file is translated under *)

Lemma arrayMap_lookup {A B} (callback : A -> M B) xs g i x :
  xs !! i = Some x ->
  (arrayMap callback xs g).1 !! i
    = Some (callback x (arrayMap callback (take i xs) g).2).1 /\
  (arrayMap callback (take (S i) xs) g).2
    = (callback x (arrayMap callback (take i xs) g).2).2.
Proof.
  revert g i. induction xs as [|y xs IH]; intros g i Hx; [discriminate|].
  destruct i as [|i]; simpl in Hx.
  - injection Hx as ->. simpl. unfold bind, ret.
    destruct (callback x g) as [b g1]. simpl.
    destruct (arrayMap callback xs g1). split; reflexivity.
  - specialize (IH (callback y g).2 i Hx). destruct IH as [IH1 IH2].
    cbn [arrayMap take]. unfold bind, ret in *.
    destruct (callback y g) as [b g1]. simpl in *.
    destruct (arrayMap callback xs g1) as [bs g2].
    destruct (arrayMap callback (take i xs) g1) as [bs' g3].
    simpl in *. split; [exact IH1|].
    destruct xs as [|z xs]; [discriminate|]. cbn [take arrayMap] in *.
    unfold bind, ret in *.
    destruct (callback z g1) as [c g4].
    destruct (arrayMap callback (take i xs) g4) as [cs g5]. exact IH2.
Qed.

Lemma source_at request rpc g i f :
  proto_file request !! i = Some f ->
  sources request rpc g !! i
  = Some {| statements :=
              ([createComment f (compiler_version request)]
               ++ importsAt (nextAutoGenerateId (stateAt request rpc g i)) f
               ++ [createImport (pbOf g) "google-protobuf";
                   createImport (grpcOf g) (grpc_package (optionsOf request))]
               ++ bodyOf (optionsOf request) rpc (pbOf g) (grpcOf g) f
                    (stateAt request rpc g i))%list |}.
Proof.
  intros Hf. unfold sources, compileAll, stateAt.
  rewrite (proj1 (arrayMap_lookup _ _ _ _ _ Hf)), generatedSource_run. reflexivity.
Qed.

Lemma stateAt_next request rpc g i f :
  proto_file request !! i = Some f ->
  stateAt request rpc g (S i) = stateAfter f (stateAt request rpc g i).
Proof.
  intros Hf. unfold stateAt.
  rewrite (proj2 (arrayMap_lookup _ _ _ _ _ Hf)), generatedSource_run. reflexivity.
Qed.

(** The declarations of a file are translated under the dependency
    table that the file before it left behind: the aliases of that
    file's imports.  The table of the file itself is filled after its
    declarations are built. *)
Lemma translated_under_previous_aliases request rpc g i before f :
  proto_file request !! i = Some before ->
  proto_file request !! S i = Some f ->
  exists n n',
    dependencyMap (tables (stateAt request rpc g (S i)))
      = bindAliases n (dependency before) ∅ /\
    sources request rpc g !! S i
    = Some {| statements :=
                ([createComment f (compiler_version request)]
                 ++ importsAt n' f
                 ++ [createImport (pbOf g) "google-protobuf";
                     createImport (grpcOf g) (grpc_package (optionsOf request))]
                 ++ (if wraps rpc (tablesAfter f (stateAt request rpc g (S i))) f
                     then [createNamespace (package f)
                             (fileStatements (optionsOf request) rpc (pbOf g) (grpcOf g)
                                (tables (stateAt request rpc g (S i))) f)]
                     else fileStatements (optionsOf request) rpc (pbOf g) (grpcOf g)
                            (tables (stateAt request rpc g (S i))) f))%list |}.
Proof.
  intros Hbefore Hf.
  exists (nextAutoGenerateId (stateAt request rpc g i)),
         (nextAutoGenerateId (stateAt request rpc g (S i))).
  split.
  - rewrite (stateAt_next _ _ _ _ _ Hbefore). reflexivity.
  - rewrite (source_at _ _ _ _ _ Hf). reflexivity.
Qed.

(** The first file is translated under the table the run started with. *)
Lemma first_translated_under_initial_table request rpc g :
  dependencyMap (tables (stateAt request rpc g 0)) = dependencyMap (tables g).
Proof. reflexivity. Qed.
End Properties.

(** ** The same batch, compiled twice *)
Section TwoRuns.
Context `{Collaborators}.
Variable renameDecl : (Identifier -> Identifier) -> Decl -> Decl.
Variable d : nat.
Hypothesis uniform : Uniform renameDecl d.

Local Abbreviation rename := (renameStatement renameDecl (shiftId d)).

Lemma bindAliases_shift deps n (m : gmap string Identifier) :
  bindAliases (d + n) deps (shiftId d <$> m) = shiftId d <$> bindAliases n deps m.
Proof.
  revert n m. induction deps as [|dep deps IH]; intros n m; [reflexivity|].
  cbn [bindAliases]. rewrite <- IH, fmap_insert, Nat.add_succ_r. reflexivity.
Qed.

Lemma tablesAfter_shift f gi :
  tablesAfter f (shiftGlobals d gi) = shiftTables d (tablesAfter f gi).
Proof.
  unfold tablesAfter, shiftTables. cbn [shiftGlobals nextAutoGenerateId tables symbols
    dependencyMap shiftTables].
  rewrite <- bindAliases_shift, fmap_empty. reflexivity.
Qed.

Lemma stateAfter_shift f gi :
  stateAfter f (shiftGlobals d gi) = shiftGlobals d (stateAfter f gi).
Proof.
  unfold stateAfter. rewrite tablesAfter_shift. unfold shiftGlobals at 2.
  cbn [tables nextAutoGenerateId shiftGlobals]. rewrite Nat.add_assoc. reflexivity.
Qed.

Lemma map_imap {A B C} (k : B -> C) (h : nat -> A -> B) (l : list A) :
  map k (imap h l) = imap (fun i x => k (h i x)) l.
Proof.
  revert h. induction l as [|x l IH]; intros h; [reflexivity|].
  cbn [imap map]. rewrite IH. reflexivity.
Qed.

Lemma importsAt_shift n f :
  importsAt (d + n) f = map rename (importsAt n f).
Proof.
  unfold importsAt. rewrite map_imap. apply imap_ext. intros i dep _.
  unfold createImport, alias, shiftId. cbn. rewrite Nat.add_assoc. reflexivity.
Qed.

Lemma fileStatements_shift options rpc pb grpc t f :
  uniformStyle renameDecl d rpc ->
  fileStatements options rpc (shiftId d pb) (shiftId d grpc) (shiftTables d t) f
  = map rename (fileStatements options rpc pb grpc t f).
Proof.
  intros (Hclient & Hserver & Hiface & _).
  unfold fileStatements. rewrite !map_app, !map_map, <- !flat_map_map.
  f_equal; [|f_equal; [|f_equal]].
  - apply map_ext. intros e. cbn. rewrite (enum_uniform _ _ uniform). reflexivity.
  - apply flat_map_ext. intros m. rewrite (message_uniform _ _ uniform), !map_map.
    reflexivity.
  - destruct (createGrpcInterfaceType rpc) as [create|] eqn:E; [|reflexivity].
    rewrite (Hiface create eq_refl), map_map. reflexivity.
  - apply flat_map_ext. intros svc. unfold defined.
    destruct (createUnimplementedServer rpc) as [server|] eqn:Es;
      destruct (createServiceClient rpc) as [client|] eqn:Ec; cbn;
      rewrite ?(Hserver server eq_refl), ?(Hclient client eq_refl); reflexivity.
Qed.

Lemma wraps_shift rpc t f :
  uniformStyle renameDecl d rpc ->
  wraps rpc (shiftTables d t) f = wraps rpc t f.
Proof.
  intros (_ & _ & _ & Hwrap). unfold wraps.
  destruct (wrapInNamespace rpc) as [query|] eqn:E; [|reflexivity].
  apply (Hwrap query eq_refl).
Qed.

Lemma generatedSource_shift request options rpc pb grpc f gi :
  uniformStyle renameDecl d rpc ->
  generatedSource request options rpc (shiftId d pb) (shiftId d grpc) f (shiftGlobals d gi)
  = (renameSource renameDecl (shiftId d)
       (generatedSource request options rpc pb grpc f gi).1,
     shiftGlobals d (generatedSource request options rpc pb grpc f gi).2).
Proof.
  intros Hrpc. rewrite !generatedSource_run. cbn [fst snd].
  rewrite stateAfter_shift. f_equal. unfold renameSource. cbn [statements]. f_equal.
  rewrite !map_app. cbn [shiftGlobals nextAutoGenerateId].
  rewrite importsAt_shift. do 3 f_equal.
  unfold bodyOf. rewrite tablesAfter_shift, (wraps_shift _ _ _ Hrpc).
  cbn [shiftGlobals tables]. rewrite (fileStatements_shift _ _ _ _ _ _ Hrpc).
  destruct (wraps rpc (tablesAfter f gi) f); reflexivity.
Qed.

Lemma sources_shift request options rpc pb grpc files gi :
  uniformStyle renameDecl d rpc ->
  (arrayMap (generatedSource request options rpc (shiftId d pb) (shiftId d grpc))
     files (shiftGlobals d gi)).1
  = map (renameSource renameDecl (shiftId d))
      (arrayMap (generatedSource request options rpc pb grpc) files gi).1.
Proof.
  intros Hrpc. revert gi. induction files as [|f files IH]; intros gi; [reflexivity|].
  cbn [arrayMap]. unfold bind at 1 3. rewrite (generatedSource_shift _ _ _ _ _ _ _ Hrpc).
  destruct (generatedSource request options rpc pb grpc f gi) as [sf g1].
  cbn [fst snd]. unfold bind, ret. specialize (IH g1).
  destruct (arrayMap (generatedSource request options rpc (shiftId d pb) (shiftId d grpc))
              files (shiftGlobals d g1)) as [sfs' g2'].
  destruct (arrayMap (generatedSource request options rpc pb grpc) files g1) as [sfs g2].
  cbn [fst] in *. rewrite IH. reflexivity.
Qed.

Lemma emit_renamed files sfs :
  zip_with emit files (map (renameSource renameDecl (shiftId d)) sfs)
  = zip_with emit files sfs.
Proof.
  revert sfs. induction files as [|f files IH]; intros [|sf sfs]; try reflexivity.
  cbn [map zip_with]. rewrite IH. unfold emit at 1 3.
  rewrite (printer_uniform _ _ uniform). reflexivity.
Qed.

(** C9. Compile the same batch twice.  Started in the same state, the
    two runs give the same response and end in the same state.  Started
    in states that differ in the unique ids only, the counter of the
    second run and every id already in its tables being displaced by [d],
    the two runs still give the same response, file names and content
    byte for byte, as long as translators, styles and printer treat an
    identifier as an opaque name: within a run every id is displaced by
    the same [d], so each run stays consistent with itself. *)
Theorem same_batch_prints_the_same request1 request2 g :
  request1 = request2 ->
  main request1 g = main request2 g /\
  fst (main request1 g) = fst (main request2 (shiftGlobals d g)).
Proof.
  intros <-. split; [reflexivity|]. rewrite !main_run.
  destruct (import_ (stylePath (optionsOf request1))) as [rpc|] eqn:Himport;
    [|reflexivity].
  pose proof (style_uniform _ _ uniform _ _ Himport) as Hrpc.
  cbn [fst]. do 2 f_equal. unfold sources, compileAll.
  assert (loopEntry request1 (shiftGlobals d g) = shiftGlobals d (loopEntry request1 g))
    as ->.
  { unfold loopEntry, shiftGlobals, shiftTables. cbn. rewrite !Nat.add_succ_r.
    reflexivity. }
  assert (grpcOf (shiftGlobals d g) = shiftId d (grpcOf g)) as ->.
  { unfold grpcOf, shiftId. cbn. rewrite Nat.add_succ_r. reflexivity. }
  change (pbOf (shiftGlobals d g)) with (shiftId d (pbOf g)).
  rewrite (sources_shift _ _ _ _ _ _ _ Hrpc), emit_renamed. reflexivity.
Qed.
End TwoRuns.

(** ** The properties at work in the concrete world *)
Section Runs.
#[local] Existing Instance Demo.types.
#[local] Existing Instance Demo.traced.

Lemma fullRun : main (Demo.batch "full") Demo.start = (Some fullResponse, fullEnd).
Proof. vm_compute. reflexivity. Qed.

(** C1. The batch [common; other; a; b] under the style without
    operations.  [a.proto] imports [common.proto] under the alias with
    id 2.  [b.proto] imports [common.proto] and [other.proto] under the
    aliases with ids 3 and 4, but its message [B] was translated before
    the table was cleared and refilled: the field of a type from
    [common.proto] is qualified by alias 2, the binding [a.proto] left
    behind, and the field of a type from [other.proto] is not qualified
    at all.  The message [A] of [a.proto] was translated under the empty
    table left by [other.proto], so its field is not qualified either. *)
Theorem stale_alias_reaches_next_file :
  sources (Demo.batch "bare") Demo.bareStyle Demo.start !! 3
  = Some {| statements :=
      [ createComment Demo.b Demo.version;
        ImportDeclaration (alias 3) "./common";
        ImportDeclaration (alias 4) "./other";
        ImportDeclaration (pbOf Demo.start) "google-protobuf";
        ImportDeclaration (grpcOf Demo.start) "@grpc/grpc-js";
        Declaration (Demo.MessageDecl "B" (pbOf Demo.start)
                       [("common.proto", Some (alias 2)); ("other.proto", None)]) ] |}
  /\ sources (Demo.batch "bare") Demo.bareStyle Demo.start !! 2
  = Some {| statements :=
      [ createComment Demo.a Demo.version;
        ImportDeclaration (alias 2) "./common";
        ImportDeclaration (pbOf Demo.start) "google-protobuf";
        ImportDeclaration (grpcOf Demo.start) "@grpc/grpc-js";
        Declaration (Demo.MessageDecl "A" (pbOf Demo.start) [("common.proto", None)]) ] |}
  /\ fst (main (Demo.batch "bare") Demo.start)
  = Some {| file := zip_with emit (proto_file (Demo.batch "bare"))
                      (sources (Demo.batch "bare") Demo.bareStyle Demo.start) |}.
Proof. vm_compute. repeat split; reflexivity. Qed.

Lemma response_follows_input_order_witness :
  length (file fullResponse) = length (proto_file (Demo.batch "full")) /\
  map file_name (file fullResponse)
    = map (fun f => replaceExtension (name f) ".ts") (proto_file (Demo.batch "full")) /\
  forall i f, proto_file (Demo.batch "full") !! i = Some f ->
    exists sourceFile rest,
      file fullResponse !! i
        = Some {| file_name := replaceExtension (name f) ".ts";
                  content := printFile sourceFile |} /\
      statements sourceFile
        = createComment f (compiler_version (Demo.batch "full")) :: rest.
Proof.
  apply (response_follows_input_order (Demo.batch "full") Demo.start fullResponse fullEnd).
  vm_compute. reflexivity.
Defined.



Lemma absent_operations_are_skipped_witness :
  Forall2 (fun f sourceFile => exists n t,
      statements sourceFile
      = ([createComment f (compiler_version (Demo.batch "bare"))]
         ++ importsAt n f
         ++ [createImport (pbOf Demo.start) "google-protobuf";
             createImport (grpcOf Demo.start)
               (grpc_package (optionsOf (Demo.batch "bare")))]
         ++ map (fun e => Declaration (createEnum t e)) (enum_type f)
         ++ flat_map (fun m => map Declaration (createMessage t f m (pbOf Demo.start)))
              (message_type f))%list)
    (proto_file (Demo.batch "bare"))
    (sources (Demo.batch "bare") Demo.bareStyle Demo.start).
Proof.
  apply (absent_operations_are_skipped (Demo.batch "bare") Demo.start Demo.bareStyle);
    reflexivity.
Defined.

Lemma namespace_iff_backend_wraps_witness :
  exists rpc,
    import_ (stylePath (optionsOf (Demo.batch "full"))) = Some rpc /\
    file fullResponse
      = zip_with emit (proto_file (Demo.batch "full"))
          (sources (Demo.batch "full") rpc Demo.start) /\
    Forall2 (fun f sourceFile => exists n t,
        let t' := {| dependencyMap := bindAliases n (dependency f) ∅;
                     symbols := preprocessAll (proto_file (Demo.batch "full"))
                                  (symbols (tables Demo.start)) |} in
        let declarations :=
          map Declaration
            (fileDecls (optionsOf (Demo.batch "full")) rpc
               (pbOf Demo.start) (grpcOf Demo.start) t f) in
        ((exists query, wrapInNamespace rpc = Some query /\ query t' f = true) <->
         List.filter isNamespace (statements sourceFile)
           = [createNamespace (package f) declarations] /\
         List.filter isDeclaration (statements sourceFile) = []) /\
        ((wrapInNamespace rpc = None \/
          exists query, wrapInNamespace rpc = Some query /\ query t' f = false) <->
         List.filter isNamespace (statements sourceFile) = [] /\
         List.filter isDeclaration (statements sourceFile) = declarations))
      (proto_file (Demo.batch "full")) (sources (Demo.batch "full") rpc Demo.start).
Proof.
  apply (namespace_iff_backend_wraps (Demo.batch "full") Demo.start fullResponse fullEnd).
  vm_compute. reflexivity.
Defined.

(** A style that is not there, no style at all, and a style that loads. *)
Lemma unresolved_style_aborts_run_witness :
  (main (Demo.batch "grpc-web") Demo.start = (None, aborted Demo.start) /\
   tables (aborted Demo.start) = tables Demo.start) /\
  main (Demo.batch EmptyString) Demo.start = (None, aborted Demo.start) /\
  fst (main (Demo.batch "client") Demo.start)
  = Some {| file := zip_with emit (proto_file (Demo.batch "client"))
                      (sources (Demo.batch "client") Demo.clientOnlyStyle Demo.start) |}.
Proof.
  split; [|split].
  - apply (proj1 (unresolved_style_aborts_run (Demo.batch "grpc-web") Demo.start)).
    reflexivity.
  - apply (proj1 (proj2 (unresolved_style_aborts_run (Demo.batch EmptyString) Demo.start)));
      reflexivity.
  - apply (proj2 (proj2 (unresolved_style_aborts_run (Demo.batch "client") Demo.start))).
    reflexivity.
Defined.

Lemma output_name_replaces_extension_witness :
  exists out, file fullResponse !! 2 = Some out /\ file_name out = "a" +:+ ".ts".
Proof.
  apply (output_name_replaces_extension (Demo.batch "full") Demo.start fullResponse fullEnd
           2 Demo.a "a" "proto").
  - vm_compute. reflexivity.
  - reflexivity.
  - reflexivity.
  - discriminate.
  - reflexivity.
Defined.

Lemma runtime_aliases_shared_and_fresh_witness :
  exists rpc (aliases : list (list Identifier)),
    import_ (stylePath (optionsOf (Demo.batch "full"))) = Some rpc /\
    file fullResponse
      = zip_with emit (proto_file (Demo.batch "full"))
          (sources (Demo.batch "full") rpc Demo.start) /\
    Forall2 (fun sourceFile al =>
               importBindings sourceFile
               = (al ++ [pbOf Demo.start; grpcOf Demo.start])%list)
      (sources (Demo.batch "full") rpc Demo.start) aliases /\
    Forall2 (fun f al => length al = length (dependency f))
      (proto_file (Demo.batch "full")) aliases /\
    NoDup (map autoGenerateId (pbOf Demo.start :: grpcOf Demo.start :: concat aliases)).
Proof.
  apply (runtime_aliases_shared_and_fresh (Demo.batch "full") Demo.start fullResponse fullEnd).
  vm_compute. reflexivity.
Defined.

(** The world whose printer shows the base text of an identifier treats
    identifiers as opaque names. *)
Lemma plain_showDecl d (x : Demo.decl) :
  Demo.showDecl text (Demo.renameDecl (shiftId d) x) = Demo.showDecl text x.
Proof.
  destruct x as [n|n pb fields|grpc|n grpc|n grpc]; try reflexivity.
  unfold Demo.renameDecl, Demo.showDecl. rewrite map_map.
  rewrite (map_ext _ (Demo.showField text)); [reflexivity|].
  intros [home [q|]]; reflexivity.
Qed.

Lemma plain_showStatement d (s : Statement) :
  Demo.showStatement text (renameStatement Demo.renameDecl (shiftId d) s)
  = Demo.showStatement text s.
Proof.
  induction s as [c|i m|x|scope body IH] using Statement_nested_ind.
  - reflexivity.
  - reflexivity.
  - apply plain_showDecl.
  - cbn [renameStatement Demo.showStatement]. rewrite map_map.
    rewrite (map_ext_Forall _ (Demo.showStatement text) IH). reflexivity.
Qed.

Lemma plain_uniform d : @Uniform Demo.types Demo.plain Demo.renameDecl d.
Proof.
  split.
  - reflexivity.
  - intros t f [n homes] pb. cbn. unfold Demo.translateMessage. cbn.
    do 2 f_equal. rewrite map_map. apply map_ext. intros home. cbn.
    rewrite lookup_fmap. reflexivity.
  - intros specifier rpc. cbn. unfold Demo.load.
    repeat case_decide; intros [= <-]; repeat split; cbn;
      intros ? [= <-]; reflexivity.
  - intros [stmts]. cbn. unfold Demo.print. cbn. f_equal.
    rewrite map_map. apply map_ext. intros s. apply plain_showStatement.
Qed.

Lemma same_batch_prints_the_same_witness :
  @main Demo.types Demo.plain (Demo.batch "full") Demo.start
  = @main Demo.types Demo.plain (Demo.batch "full") Demo.start /\
  fst (@main Demo.types Demo.plain (Demo.batch "full") Demo.start)
  = fst (@main Demo.types Demo.plain (Demo.batch "full") (shiftGlobals 5 Demo.start)).
Proof.
  apply (@same_batch_prints_the_same Demo.types Demo.plain Demo.renameDecl 5
           (plain_uniform 5) (Demo.batch "full") (Demo.batch "full") Demo.start).
  reflexivity.
Defined.
End Runs.

(** ** More about [replaceExtension] *)
Section Extensions.
Context `{Collaborators}.

Lemma extensionChars_slash s t :
  extensionChars (s +:+ String "/"%char t) = false.
Proof.
  induction s as [|c s IH]; simpl.
  - reflexivity.
  - rewrite IH. apply andb_false_r.
Qed.

Lemma extensionAt_before_slash c s t :
  extensionAt (String c (s +:+ String "/"%char t)) = false.
Proof.
  destruct s as [|c' s]; simpl.
  - rewrite andb_false_r. reflexivity.
  - rewrite extensionChars_slash, !andb_false_r. reflexivity.
Qed.

(** Does the pattern match somewhere in [s]? *)
Fixpoint hasExtension (s : string) : bool :=
  extensionAt s || match s with
                   | EmptyString => false
                   | String _ rest => hasExtension rest
                   end.

Lemma hasExtension_intro stem ext :
  ext <> EmptyString -> extensionChars ext = true ->
  hasExtension (stem +:+ "." +:+ ext) = true.
Proof.
  intros Hne Hext. induction stem as [|c stem IH].
  - destruct ext as [|c ext]; [congruence|].
    change (EmptyString +:+ "." +:+ String c ext) with (String "."%char (String c ext)).
    cbn [hasExtension]. simpl in Hext |- *. rewrite Hext. reflexivity.
  - change (String c stem +:+ "." +:+ ext) with (String c (stem +:+ "." +:+ ext)).
    cbn [hasExtension]. rewrite IH. apply orb_true_r.
Qed.

Lemma replaceAt_slash before dir base extension :
  replaceAt before (dir +:+ "/" +:+ base) extension
  = dir +:+ "/" +:+ replaceAt (before +:+ dir +:+ "/") base extension.
Proof.
  revert before. induction dir as [|c dir IH]; intros before.
  - change (EmptyString +:+ "/" +:+ base) with (String "/"%char base).
    cbn [replaceAt].
    assert (extensionAt (String "/"%char base) = false) as ->
      by (destruct base; reflexivity).
    reflexivity.
  - change (String c dir +:+ "/" +:+ base)
      with (String c (dir +:+ String "/"%char base)).
    cbn [replaceAt]. rewrite extensionAt_before_slash.
    change (dir +:+ String "/"%char base) with (dir +:+ "/" +:+ base).
    rewrite IH, append_assoc. reflexivity.
Qed.

Lemma replaceAt_dollarFree before before' filename extension :
  dollarFree extension = true ->
  replaceAt before filename extension = replaceAt before' filename extension.
Proof.
  intros Hfree. revert before before'.
  induction filename as [|c rest IH]; intros before before'; [reflexivity|].
  cbn [replaceAt]. destruct (extensionAt (String c rest)).
  - rewrite !getSubstitution_dollarFree by exact Hfree. reflexivity.
  - f_equal. apply IH.
Qed.

(** The replacement patterns at work. *)
Example replace_with_match :
  replaceExtension "a.proto" ".$&" = "a..proto" /\
  replaceExtension "a..proto" ".$&" = "a...proto" /\
  replaceExtension "a.proto" "$&" = "a.proto".
Proof. repeat split; reflexivity. Qed.

Example replace_with_prefix :
  replaceExtension "d/a.proto" "$`" = "d/ad/a" /\ replaceExtension "a.proto" "$`" = "aa".
Proof. split; reflexivity. Qed.

Example replace_with_dollar :
  replaceExtension "a.proto" ".t$$s" = "a.t$s" /\ replaceExtension "a.proto" ".t$1s" = "a.t$1s".
Proof. split; reflexivity. Qed.

(** X1. The directories of a name are never touched: for every
    replacement, the result for [dir/base] is [dir/] followed by the
    replacement made in [base], [dir/] being part of what precedes the
    match; for a replacement without dollar this is [dir/] followed by
    the result for [base] alone. *)
Theorem replaceExtension_keeps_directories dir base extension :
  replaceExtension (dir +:+ "/" +:+ base) extension
    = dir +:+ "/" +:+ replaceAt (dir +:+ "/") base extension /\
  (dollarFree extension = true ->
   replaceExtension (dir +:+ "/" +:+ base) extension
     = dir +:+ "/" +:+ replaceExtension base extension).
Proof.
  assert (replaceExtension (dir +:+ "/" +:+ base) extension
          = dir +:+ "/" +:+ replaceAt (dir +:+ "/") base extension) as Hany
    by apply (replaceAt_slash EmptyString).
  split; [exact Hany|].
  intros Hfree. rewrite Hany. do 2 f_equal.
  apply replaceAt_dollarFree, Hfree.
Qed.

(** X2. Replacing by a real extension (a dot followed by at least one
    character that is none of dot, slash and dollar, such as [.ts]) is
    idempotent: the name of a generated file is a fixed point. *)
Theorem replaceExtension_idempotent filename ext :
  ext <> EmptyString ->
  extensionChars ext = true ->
  dollarFree ext = true ->
  replaceExtension (replaceExtension filename ("." +:+ ext)) ("." +:+ ext)
  = replaceExtension filename ("." +:+ ext).
Proof.
  intros Hne Hext Hfree.
  assert (dollarFree ("." +:+ ext) = true) as Hfree' by exact Hfree.
  destruct (extension_or_none filename) as [(stem & old & -> & Hne' & Hext') | Hnone].
  - rewrite (replaceExtension_last_dot stem old) by assumption.
    apply (replaceExtension_last_dot stem ext); assumption.
  - rewrite !(replaceExtension_no_extension filename) by exact Hnone. reflexivity.
Qed.

(** X4. [replaceExtension] changes the end of a name only: the name
    splits into a part that is kept and a part that is dropped; the
    dropped part is empty, and then the name is returned as it is, or it
    is the extension (dot included), and then the substitution for the
    replacement takes its place, with the dropped part as the match and
    the kept part as what precedes it; a replacement without dollar is
    its own substitution. *)
Theorem replaceExtension_changes_the_end filename extension :
  exists kept dropped,
    filename = kept +:+ dropped /\
    replaceExtension filename EmptyString = kept /\
    replaceExtension filename extension
      = (if decide (dropped = EmptyString) then filename
         else kept +:+ getSubstitution dropped kept EmptyString extension) /\
    (dollarFree extension = true ->
     getSubstitution dropped kept EmptyString extension = extension) /\
    (dropped = EmptyString \/
     exists ext, dropped = "." +:+ ext /\ ext <> EmptyString /\ extensionChars ext = true).
Proof.
  destruct (extension_or_none filename) as [(stem & old & -> & Hne & Hext) | Hnone].
  - exists stem, ("." +:+ old). split; [reflexivity|].
    rewrite (replaceExtension_last_dot stem old EmptyString) by (assumption || reflexivity).
    rewrite (replaceExtension_last_dot_any stem old extension) by assumption.
    rewrite append_empty_r. split; [reflexivity|]. split; [|split].
    + destruct (decide ("." +:+ old = EmptyString)); [discriminate | reflexivity].
    + apply getSubstitution_dollarFree.
    + right. exists old. repeat split; assumption.
  - exists filename, EmptyString. rewrite append_empty_r.
    rewrite !(replaceExtension_no_extension filename) by exact Hnone.
    split; [reflexivity|]. split; [reflexivity|]. split; [reflexivity|].
    split; [apply getSubstitution_dollarFree|].
    left. reflexivity.
Qed.

(** X3. A schema file whose name has no extension gets a generated file
    of the very same name: nothing is appended. *)
Theorem output_name_without_extension request g response g' i f :
  main request g = (Some response, g') ->
  proto_file request !! i = Some f ->
  (forall stem ext, name f = stem +:+ "." +:+ ext ->
     ext <> EmptyString -> extensionChars ext = true -> False) ->
  exists out, file response !! i = Some out /\ file_name out = name f.
Proof.
  intros Hmain Hf Hnone.
  destruct (main_entry _ _ _ _ _ _ Hmain Hf) as (rpc & sf & gi & _ & Hentry & _).
  exists (emit f sf). split; [exact Hentry|].
  apply replaceExtension_no_extension, Hnone.
Qed.

(** X11. Schema files whose names differ in the extension only are given
    the same output name: the response then holds two files of one
    name. *)
Theorem output_names_collide request g response g' i j f1 f2 stem ext1 ext2 :
  main request g = (Some response, g') ->
  proto_file request !! i = Some f1 ->
  proto_file request !! j = Some f2 ->
  name f1 = stem +:+ "." +:+ ext1 ->
  name f2 = stem +:+ "." +:+ ext2 ->
  ext1 <> EmptyString -> extensionChars ext1 = true ->
  ext2 <> EmptyString -> extensionChars ext2 = true ->
  exists out1 out2,
    file response !! i = Some out1 /\ file response !! j = Some out2 /\
    file_name out1 = file_name out2.
Proof.
  intros Hmain Hf1 Hf2 Hn1 Hn2 Hne1 Hext1 Hne2 Hext2.
  destruct (main_entry _ _ _ _ _ _ Hmain Hf1) as (rpc1 & sf1 & g1 & _ & Hentry1 & _).
  destruct (main_entry _ _ _ _ _ _ Hmain Hf2) as (rpc2 & sf2 & g2 & _ & Hentry2 & _).
  exists (emit f1 sf1), (emit f2 sf2). repeat (split; [assumption|]).
  simpl. rewrite Hn1, Hn2.
  rewrite !replaceExtension_last_dot by (assumption || reflexivity). reflexivity.
Qed.
End Extensions.

(** ** More about the run *)
Section RunState.
Context `{Collaborators}.

(** The part of a source file that is neither a declaration nor a
    namespace: the header comment and the imports. *)
Definition headerOf (sourceFile : SourceFile) : list Statement :=
  List.filter (fun s => negb (isDeclaration s || isNamespace s)) (statements sourceFile).

Lemma bindAliases_other deps n (m : gmap string Identifier) dep :
  dep ∉ deps -> bindAliases n deps m !! dep = m !! dep.
Proof.
  revert n m. induction deps as [|d deps IH]; intros n m Hnot; [reflexivity|].
  cbn [bindAliases]. rewrite IH by (intros Hin; apply Hnot; right; exact Hin).
  apply lookup_insert_ne. intros ->. apply Hnot. left.
Qed.

Lemma bindAliases_last deps n (m : gmap string Identifier) k dep :
  deps !! k = Some dep ->
  dep ∉ drop (S k) deps ->
  bindAliases n deps m !! dep = Some (alias (n + k)).
Proof.
  revert n m k. induction deps as [|d deps IH]; intros n m k Hk Hlater; [discriminate|].
  cbn [bindAliases]. destruct k as [|k]; simpl in Hk, Hlater.
  - injection Hk as ->. rewrite drop_0 in Hlater.
    rewrite bindAliases_other by exact Hlater.
    rewrite Nat.add_0_r. apply lookup_insert_eq.
  - rewrite (IH (S n) _ k Hk Hlater). do 2 f_equal. lia.
Qed.

(** X5. When a file has been compiled the dependency table holds its
    dependencies and nothing else, whatever it held before: a name that
    is not a dependency of the file is unbound, and a dependency is bound
    to the alias of its import, the last one if it is declared more than
    once. *)
Theorem table_after_file request options rpc pb grpc f g k dep :
  dependency f !! k = Some dep ->
  dep ∉ drop (S k) (dependency f) ->
  let result := generatedSource request options rpc pb grpc f g in
  dependencyMap (tables result.2) !! dep = Some (alias (nextAutoGenerateId g + k)) /\
  importBindings result.1 !! k = Some (alias (nextAutoGenerateId g + k)) /\
  forall other, other ∉ dependency f ->
    dependencyMap (tables result.2) !! other = None.
Proof.
  intros Hk Hlater result. subst result. split; [|split].
  - rewrite generatedSource_run. cbn [snd stateAfter tables tablesAfter dependencyMap].
    apply bindAliases_last; assumption.
  - rewrite importBindings_source.
    assert (k < length (dependency f)) as Hlt by (eapply lookup_lt_Some; exact Hk).
    rewrite lookup_app_l by (rewrite length_map, length_seq; exact Hlt).
    change (map alias ?l) with (alias <$> l). rewrite list_lookup_fmap.
    rewrite lookup_seq_lt by exact Hlt. reflexivity.
  - intros other Hother. rewrite generatedSource_run.
    cbn [snd stateAfter tables tablesAfter dependencyMap].
    rewrite bindAliases_other by exact Hother. apply lookup_empty.
Qed.

Lemma compile_cons request options rpc pb grpc f files gi :
  arrayMap (generatedSource request options rpc pb grpc) (f :: files) gi
  = ((generatedSource request options rpc pb grpc f gi).1
       :: (arrayMap (generatedSource request options rpc pb grpc) files
             (stateAfter f gi)).1,
     (arrayMap (generatedSource request options rpc pb grpc) files (stateAfter f gi)).2).
Proof.
  cbn [arrayMap]. unfold bind, ret. rewrite generatedSource_run.
  destruct (arrayMap (generatedSource request options rpc pb grpc) files
              (stateAfter f gi)); reflexivity.
Qed.

(** The counter and the symbol tables along the loop. *)
Lemma loop_state request options rpc pb grpc files gi :
  let final := (arrayMap (generatedSource request options rpc pb grpc) files gi).2 in
  nextAutoGenerateId final = nextAutoGenerateId gi + aliasCount files /\
  symbols (tables final) = symbols (tables gi).
Proof.
  revert gi. induction files as [|f files IH]; intros gi; cbn zeta.
  - simpl. split; [lia | reflexivity].
  - rewrite compile_cons. cbn [snd].
    destruct (IH (stateAfter f gi)) as [IHn IHs]. rewrite IHn, IHs.
    simpl. split; [lia | reflexivity].
Qed.

Lemma stateAt_counter request rpc g i :
  nextAutoGenerateId (stateAt request rpc g i)
  = S (S (nextAutoGenerateId g)) + aliasCount (take i (proto_file request)).
Proof. unfold stateAt. apply loop_state. Qed.

Lemma stateAt_symbols request rpc g i :
  symbols (tables (stateAt request rpc g i))
  = preprocessAll (proto_file request) (symbols (tables g)).
Proof. unfold stateAt. apply loop_state. Qed.

Lemma stateAt_end request rpc g :
  stateAt request rpc g (length (proto_file request)) = (compileAll request rpc g).2.
Proof. unfold stateAt, compileAll. rewrite take_ge by lia. reflexivity. Qed.

(** X7. What a run leaves behind.  It has drawn two unique names plus one
    per declared dependency of the batch; the symbol tables are those
    built by the [preprocess] loop, the file loop has not changed them;
    and the dependency table is not cleared at the end: it holds the
    aliases of the last file of the batch (for an empty batch, what it
    held before the run). *)
Theorem state_after_run request g response g' :
  main request g = (Some response, g') ->
  nextAutoGenerateId g' = nextAutoGenerateId g + 2 + aliasCount (proto_file request) /\
  symbols (tables g') = preprocessAll (proto_file request) (symbols (tables g)) /\
  (proto_file request = [] -> dependencyMap (tables g') = dependencyMap (tables g)) /\
  (forall front f, proto_file request = (front ++ [f])%list ->
     dependencyMap (tables g')
     = bindAliases (nextAutoGenerateId g + 2 + aliasCount front) (dependency f) ∅).
Proof.
  rewrite main_run.
  destruct (import_ (stylePath (optionsOf request))) as [rpc|]; [|discriminate].
  intros [= _ <-]. rewrite <- stateAt_end.
  split; [|split; [|split]].
  - rewrite stateAt_counter, take_ge by lia. lia.
  - apply stateAt_symbols.
  - intros ->. reflexivity.
  - intros front f Hfiles.
    assert (proto_file request !! length front = Some f) as Hf
      by (rewrite Hfiles; apply list_lookup_middle; reflexivity).
    assert (length (proto_file request) = S (length front)) as ->
      by (rewrite Hfiles, length_app; simpl; lia).
    rewrite (stateAt_next _ _ _ _ _ Hf).
    cbn [stateAfter tables tablesAfter dependencyMap].
    rewrite stateAt_counter, Hfiles, take_app_length. f_equal. lia.
Qed.

(** X12. The aliases are numbered in batch order: the imports of the file
    at position [i] bind the ids that follow the two runtime ids and the
    ids of the dependencies of the files before it, one after the other,
    then [pb] and [grpc]. *)
Theorem aliases_numbered_in_batch_order request rpc g i f :
  proto_file request !! i = Some f ->
  exists sourceFile,
    sources request rpc g !! i = Some sourceFile /\
    importBindings sourceFile
    = (map alias (seq (nextAutoGenerateId g + 2 + aliasCount (take i (proto_file request)))
                      (length (dependency f)))
       ++ [pbOf g; grpcOf g])%list.
Proof.
  intros Hf. eexists. split.
  - unfold sources, compileAll. apply (arrayMap_lookup _ _ _ _ _ Hf).
  - rewrite importBindings_source. fold (stateAt request rpc g i).
    rewrite stateAt_counter. do 3 f_equal. lia.
Qed.

(** X13. Every file is translated under the symbol tables of the whole
    batch, files that come later in the batch included: the [preprocess]
    loop is over before the first file is translated, and nothing in the
    file loop touches the symbol tables. *)
Theorem translated_under_symbols_of_batch request g response g' i f :
  main request g = (Some response, g') ->
  proto_file request !! i = Some f ->
  exists rpc n t t',
    import_ (stylePath (optionsOf request)) = Some rpc /\
    symbols t = preprocessAll (proto_file request) (symbols (tables g)) /\
    symbols t' = preprocessAll (proto_file request) (symbols (tables g)) /\
    file response !! i
    = Some (emit f {| statements :=
        ([createComment f (compiler_version request)]
         ++ importsAt n f
         ++ [createImport (pbOf g) "google-protobuf";
             createImport (grpcOf g) (grpc_package (optionsOf request))]
         ++ (if wraps rpc t' f
             then [createNamespace (package f)
                     (fileStatements (optionsOf request) rpc (pbOf g) (grpcOf g) t f)]
             else fileStatements (optionsOf request) rpc (pbOf g) (grpcOf g) t f))%list |}).
Proof.
  intros Hmain Hf.
  destruct (main_response _ _ _ _ Hmain) as (rpc & Himport & Hfiles).
  exists rpc, (nextAutoGenerateId (stateAt request rpc g i)),
    (tables (stateAt request rpc g i)), (tablesAfter f (stateAt request rpc g i)).
  split; [exact Himport|]. split; [apply stateAt_symbols|].
  split; [apply stateAt_symbols|].
  rewrite Hfiles, lookup_zip_with, Hf. cbn. rewrite (source_at _ _ _ _ _ Hf).
  reflexivity.
Qed.

(** X6. Every file but the first is translated under the dependency
    table of the file before it: its declarations are built while the
    table holds the aliases of that file's imports, and its own aliases
    (which come next in the numbering) are bound afterwards, in time for
    the namespace query only. *)
Theorem declarations_see_aliases_of_previous_file request g response g' i before f :
  main request g = (Some response, g') ->
  proto_file request !! i = Some before ->
  proto_file request !! S i = Some f ->
  exists rpc n t t',
    import_ (stylePath (optionsOf request)) = Some rpc /\
    dependencyMap t = bindAliases n (dependency before) ∅ /\
    dependencyMap t' = bindAliases (n + length (dependency before)) (dependency f) ∅ /\
    file response !! S i
    = Some (emit f {| statements :=
        ([createComment f (compiler_version request)]
         ++ importsAt (n + length (dependency before)) f
         ++ [createImport (pbOf g) "google-protobuf";
             createImport (grpcOf g) (grpc_package (optionsOf request))]
         ++ (if wraps rpc t' f
             then [createNamespace (package f)
                     (fileStatements (optionsOf request) rpc (pbOf g) (grpcOf g) t f)]
             else fileStatements (optionsOf request) rpc (pbOf g) (grpcOf g) t f))%list |}).
Proof.
  intros Hmain Hbefore Hf.
  destruct (main_response _ _ _ _ Hmain) as (rpc & Himport & Hfiles).
  exists rpc, (nextAutoGenerateId (stateAt request rpc g i)),
    (tables (stateAt request rpc g (S i))),
    (tablesAfter f (stateAt request rpc g (S i))).
  split; [exact Himport|].
  rewrite Hfiles, lookup_zip_with, Hf. cbn. rewrite (source_at _ _ _ _ _ Hf).
  rewrite (stateAt_next _ _ _ _ _ Hbefore). repeat split; reflexivity.
Qed.

(** X14. The first file of a run is translated under the dependency
    table the run started with: in a fresh process, where the table is
    empty, its declarations see no alias at all, whatever the file
    imports. *)
Theorem first_file_sees_initial_table request g response g' f :
  main request g = (Some response, g') ->
  proto_file request !! 0 = Some f ->
  exists rpc t t',
    import_ (stylePath (optionsOf request)) = Some rpc /\
    dependencyMap t = dependencyMap (tables g) /\
    dependencyMap t'
      = bindAliases (S (S (nextAutoGenerateId g))) (dependency f) ∅ /\
    file response !! 0
    = Some (emit f {| statements :=
        ([createComment f (compiler_version request)]
         ++ importsAt (S (S (nextAutoGenerateId g))) f
         ++ [createImport (pbOf g) "google-protobuf";
             createImport (grpcOf g) (grpc_package (optionsOf request))]
         ++ (if wraps rpc t' f
             then [createNamespace (package f)
                     (fileStatements (optionsOf request) rpc (pbOf g) (grpcOf g) t f)]
             else fileStatements (optionsOf request) rpc (pbOf g) (grpcOf g) t f))%list |}).
Proof.
  intros Hmain Hf.
  destruct (main_response _ _ _ _ Hmain) as (rpc & Himport & Hfiles).
  exists rpc, (tables (stateAt request rpc g 0)),
    (tablesAfter f (stateAt request rpc g 0)).
  split; [exact Himport|].
  rewrite Hfiles, lookup_zip_with, Hf. cbn. rewrite (source_at _ _ _ _ _ Hf).
  repeat split; reflexivity.
Qed.

Lemma headerOf_source request options rpc pb grpc f gi :
  headerOf (generatedSource request options rpc pb grpc f gi).1
  = ([createComment f (compiler_version request)]
     ++ importsAt (nextAutoGenerateId gi) f
     ++ [createImport pb "google-protobuf"; createImport grpc (grpc_package options)])%list.
Proof.
  rewrite generatedSource_run. unfold headerOf. cbn [fst statements].
  rewrite !List.filter_app.
  assert (List.filter (fun s => negb (isDeclaration s || isNamespace s))
            (importsAt (nextAutoGenerateId gi) f)
          = importsAt (nextAutoGenerateId gi) f) as ->.
  { unfold importsAt. apply filter_everything, Forall_imap. reflexivity. }
  assert (List.filter (fun s => negb (isDeclaration s || isNamespace s))
            (bodyOf options rpc pb grpc f gi) = []) as ->.
  { unfold bodyOf. destruct (wraps rpc (tablesAfter f gi) f); [reflexivity|].
    rewrite fileStatements_decls. apply filter_nothing, Forall_map, Forall_true.
    reflexivity. }
  reflexivity.
Qed.

Lemma headers_any_style request options rpc1 rpc2 pb grpc files g1 g2 :
  nextAutoGenerateId g1 = nextAutoGenerateId g2 ->
  map headerOf (arrayMap (generatedSource request options rpc1 pb grpc) files g1).1
  = map headerOf (arrayMap (generatedSource request options rpc2 pb grpc) files g2).1.
Proof.
  revert g1 g2. induction files as [|f files IH]; intros g1 g2 Hn; [reflexivity|].
  rewrite !compile_cons. cbn [fst map]. rewrite !headerOf_source, Hn.
  f_equal. apply IH. cbn [stateAfter nextAutoGenerateId]. rewrite Hn. reflexivity.
Qed.

(** X8. The style has no say in the header and the imports: under any two
    styles the header comment, the dependency imports (aliases and
    specifiers) and the two runtime imports of every file are the same;
    a style decides on declarations and namespaces only. *)
Theorem header_and_imports_any_style request g rpc1 rpc2 :
  map headerOf (sources request rpc1 g) = map headerOf (sources request rpc2 g).
Proof. unfold sources, compileAll. apply headers_any_style. reflexivity. Qed.
End RunState.

(** ** The style specifier and the header comment *)
Section Texts.
Context `{Collaborators}.

(** X9. Two option sets ask for the same module exactly when their styles
    read the same in the template literal: different style names never
    share a specifier, and an absent style asks for the module of a style
    named [undefined]. *)
Theorem style_decides_specifier (o1 o2 : Options) :
  (stylePath o1 = stylePath o2 <-> interpolate (style o1) = interpolate (style o2)) /\
  (style o1 = None -> style o2 = Some "undefined" -> stylePath o1 = stylePath o2).
Proof.
  split; [split|].
  - unfold stylePath. intros Heq.
    apply (append_cancel_l "./style/") in Heq.
    apply (append_cancel_r _ _ "/rpc.js") in Heq. exact Heq.
  - unfold stylePath. intros ->. reflexivity.
  - unfold stylePath. intros -> ->. reflexivity.
Qed.

(** X10. The header comment tells the schema files of a batch apart: for
    one compiler version, two files have the same header only if they
    have the same name. *)
Theorem header_names_its_source (f1 f2 : FileDescriptorProto) (v : Version) :
  createComment f1 v = createComment f2 v -> name f1 = name f2.
Proof.
  unfold createComment. intros [= Heq].
  repeat (apply append_cancel_l in Heq).
  apply append_cancel_r in Heq. exact Heq.
Qed.
End Texts.

(** ** The further properties at work in the concrete world *)
Section MoreRuns.
#[local] Existing Instance Demo.types.
#[local] Existing Instance Demo.traced.

Lemma replaceExtension_idempotent_witness :
  replaceExtension (replaceExtension "dir.v1/a.b.proto" ("." +:+ "ts")) ("." +:+ "ts")
  = replaceExtension "dir.v1/a.b.proto" ("." +:+ "ts").
Proof.
  apply (replaceExtension_idempotent "dir.v1/a.b.proto" "ts").
  - discriminate.
  - reflexivity.
  - reflexivity.
Defined.

Lemma replaceExtension_keeps_directories_witness :
  replaceExtension ("dir.v1" +:+ "/" +:+ "a.b.proto") ".ts"
  = "dir.v1" +:+ "/" +:+ replaceExtension "a.b.proto" ".ts".
Proof.
  apply (replaceExtension_keeps_directories "dir.v1" "a.b.proto" ".ts"). reflexivity.
Defined.

Lemma replaceExtension_changes_the_end_witness :
  exists kept dropped,
    "a.proto" = kept +:+ dropped /\
    replaceExtension "a.proto" EmptyString = kept /\
    replaceExtension "a.proto" ".ts"
      = (if decide (dropped = EmptyString) then "a.proto"
         else kept +:+ getSubstitution dropped kept EmptyString ".ts") /\
    getSubstitution dropped kept EmptyString ".ts" = ".ts" /\
    (dropped = EmptyString \/
     exists ext, dropped = "." +:+ ext /\ ext <> EmptyString /\ extensionChars ext = true).
Proof.
  destruct (replaceExtension_changes_the_end "a.proto" ".ts")
    as (kept & dropped & Hsplit & Hkept & Hresult & Hliteral & Hshape).
  exists kept, dropped. repeat (split; [assumption|]).
  split; [apply Hliteral; reflexivity | exact Hshape].
Defined.

(** A batch with a schema file that has no extension, and with two that
    differ in the extension only. *)
Definition readme : FileDescriptorProto :=
  {| name := "schemas.v1/README"; package := None; dependency := [];
     enum_type := []; message_type := []; service := [] |}.

Definition xProto : FileDescriptorProto :=
  {| name := "x.proto"; package := None; dependency := [];
     enum_type := ["E"]; message_type := []; service := [] |}.

Definition xProto3 : FileDescriptorProto :=
  {| name := "x.proto3"; package := None; dependency := [];
     enum_type := []; message_type := []; service := [] |}.

Definition oddNames : CodeGeneratorRequest :=
  {| parameter := "bare"; proto_file := [readme; xProto; xProto3];
     compiler_version := Demo.version |}.

Definition oddResponse : CodeGeneratorResponse :=
  Eval vm_compute in default {| file := [] |} (fst (main oddNames Demo.start)).

Definition oddEnd : Globals := Eval vm_compute in snd (main oddNames Demo.start).

Lemma no_extension_in_README stem ext :
  "schemas.v1/README" = stem +:+ "." +:+ ext ->
  ext <> EmptyString -> extensionChars ext = true -> False.
Proof.
  intros Heq Hne Hext.
  pose proof (hasExtension_intro stem ext Hne Hext) as Hhas.
  rewrite <- Heq in Hhas. discriminate.
Qed.

Lemma output_name_without_extension_witness :
  exists out, file oddResponse !! 0 = Some out /\ file_name out = "schemas.v1/README".
Proof.
  apply (output_name_without_extension oddNames Demo.start oddResponse oddEnd 0 readme).
  - vm_compute. reflexivity.
  - reflexivity.
  - exact no_extension_in_README.
Defined.

Lemma output_names_collide_witness :
  exists out1 out2,
    file oddResponse !! 1 = Some out1 /\ file oddResponse !! 2 = Some out2 /\
    file_name out1 = file_name out2.
Proof.
  apply (output_names_collide oddNames Demo.start oddResponse oddEnd 1 2
           xProto xProto3 "x" "proto" "proto3").
  - vm_compute. reflexivity.
  - reflexivity.
  - reflexivity.
  - reflexivity.
  - reflexivity.
  - discriminate.
  - reflexivity.
  - discriminate.
  - reflexivity.
Defined.

(** A file that declares one dependency twice. *)
Definition twice : FileDescriptorProto :=
  {| name := "t.proto"; package := None;
     dependency := ["common.proto"; "other.proto"; "common.proto"];
     enum_type := []; message_type := []; service := [] |}.

Lemma table_after_file_witness :
  let result :=
    generatedSource (Demo.batch "bare") (optionsOf (Demo.batch "bare")) Demo.bareStyle
      (pbOf Demo.start) (grpcOf Demo.start) twice (loopEntry (Demo.batch "bare") Demo.start) in
  dependencyMap (tables result.2) !! "common.proto" = Some (alias (2 + 2)) /\
  importBindings result.1 !! 2 = Some (alias (2 + 2)) /\
  forall other, other ∉ dependency twice ->
    dependencyMap (tables result.2) !! other = None.
Proof.
  apply (table_after_file (Demo.batch "bare") (optionsOf (Demo.batch "bare"))
           Demo.bareStyle (pbOf Demo.start) (grpcOf Demo.start) twice
           (loopEntry (Demo.batch "bare") Demo.start) 2 "common.proto").
  - reflexivity.
  - simpl. apply not_elem_of_nil.
Defined.

Lemma state_after_run_witness :
  nextAutoGenerateId fullEnd
    = nextAutoGenerateId Demo.start + 2 + aliasCount (proto_file (Demo.batch "full")) /\
  symbols (tables fullEnd)
    = preprocessAll (proto_file (Demo.batch "full")) (symbols (tables Demo.start)) /\
  (proto_file (Demo.batch "full") = [] ->
     dependencyMap (tables fullEnd) = dependencyMap (tables Demo.start)) /\
  (forall front f, proto_file (Demo.batch "full") = (front ++ [f])%list ->
     dependencyMap (tables fullEnd)
     = bindAliases (nextAutoGenerateId Demo.start + 2 + aliasCount front) (dependency f) ∅).
Proof.
  apply (state_after_run (Demo.batch "full") Demo.start fullResponse fullEnd).
  vm_compute. reflexivity.
Defined.

Lemma aliases_numbered_in_batch_order_witness :
  exists sourceFile,
    sources (Demo.batch "full") Demo.fullStyle Demo.start !! 3 = Some sourceFile /\
    importBindings sourceFile
    = (map alias (seq (nextAutoGenerateId Demo.start + 2
                       + aliasCount (take 3 (proto_file (Demo.batch "full"))))
                      (length (dependency Demo.b)))
       ++ [pbOf Demo.start; grpcOf Demo.start])%list.
Proof.
  apply (aliases_numbered_in_batch_order (Demo.batch "full") Demo.fullStyle Demo.start
           3 Demo.b).
  reflexivity.
Defined.

Lemma translated_under_symbols_of_batch_witness :
  exists rpc n t t',
    import_ (stylePath (optionsOf (Demo.batch "full"))) = Some rpc /\
    symbols t = preprocessAll (proto_file (Demo.batch "full")) (symbols (tables Demo.start)) /\
    symbols t' = preprocessAll (proto_file (Demo.batch "full")) (symbols (tables Demo.start)) /\
    file fullResponse !! 0
    = Some (emit Demo.common {| statements :=
        ([createComment Demo.common (compiler_version (Demo.batch "full"))]
         ++ importsAt n Demo.common
         ++ [createImport (pbOf Demo.start) "google-protobuf";
             createImport (grpcOf Demo.start) (grpc_package (optionsOf (Demo.batch "full")))]
         ++ (if wraps rpc t' Demo.common
             then [createNamespace (package Demo.common)
                     (fileStatements (optionsOf (Demo.batch "full")) rpc
                        (pbOf Demo.start) (grpcOf Demo.start) t Demo.common)]
             else fileStatements (optionsOf (Demo.batch "full")) rpc
                    (pbOf Demo.start) (grpcOf Demo.start) t Demo.common))%list |}).
Proof.
  apply (translated_under_symbols_of_batch (Demo.batch "full") Demo.start
           fullResponse fullEnd 0 Demo.common).
  - vm_compute. reflexivity.
  - reflexivity.
Defined.

Lemma declarations_see_aliases_of_previous_file_witness :
  exists rpc n t t',
    import_ (stylePath (optionsOf (Demo.batch "full"))) = Some rpc /\
    dependencyMap t = bindAliases n (dependency Demo.a) ∅ /\
    dependencyMap t' = bindAliases (n + length (dependency Demo.a)) (dependency Demo.b) ∅ /\
    file fullResponse !! 3
    = Some (emit Demo.b {| statements :=
        ([createComment Demo.b (compiler_version (Demo.batch "full"))]
         ++ importsAt (n + length (dependency Demo.a)) Demo.b
         ++ [createImport (pbOf Demo.start) "google-protobuf";
             createImport (grpcOf Demo.start) (grpc_package (optionsOf (Demo.batch "full")))]
         ++ (if wraps rpc t' Demo.b
             then [createNamespace (package Demo.b)
                     (fileStatements (optionsOf (Demo.batch "full")) rpc
                        (pbOf Demo.start) (grpcOf Demo.start) t Demo.b)]
             else fileStatements (optionsOf (Demo.batch "full")) rpc
                    (pbOf Demo.start) (grpcOf Demo.start) t Demo.b))%list |}).
Proof.
  apply (declarations_see_aliases_of_previous_file (Demo.batch "full") Demo.start
           fullResponse fullEnd 2 Demo.a Demo.b).
  - vm_compute. reflexivity.
  - reflexivity.
  - reflexivity.
Defined.

Lemma first_file_sees_initial_table_witness :
  exists rpc t t',
    import_ (stylePath (optionsOf (Demo.batch "full"))) = Some rpc /\
    dependencyMap t = dependencyMap (tables Demo.start) /\
    dependencyMap t'
      = bindAliases (S (S (nextAutoGenerateId Demo.start))) (dependency Demo.common) ∅ /\
    file fullResponse !! 0
    = Some (emit Demo.common {| statements :=
        ([createComment Demo.common (compiler_version (Demo.batch "full"))]
         ++ importsAt (S (S (nextAutoGenerateId Demo.start))) Demo.common
         ++ [createImport (pbOf Demo.start) "google-protobuf";
             createImport (grpcOf Demo.start) (grpc_package (optionsOf (Demo.batch "full")))]
         ++ (if wraps rpc t' Demo.common
             then [createNamespace (package Demo.common)
                     (fileStatements (optionsOf (Demo.batch "full")) rpc
                        (pbOf Demo.start) (grpcOf Demo.start) t Demo.common)]
             else fileStatements (optionsOf (Demo.batch "full")) rpc
                    (pbOf Demo.start) (grpcOf Demo.start) t Demo.common))%list |}).
Proof.
  apply (first_file_sees_initial_table (Demo.batch "full") Demo.start
           fullResponse fullEnd Demo.common).
  - vm_compute. reflexivity.
  - reflexivity.
Defined.

Lemma header_names_its_source_witness : name Demo.a = name Demo.a.
Proof.
  apply (header_names_its_source Demo.a Demo.a Demo.version). reflexivity.
Defined.
End MoreRuns.
